(** * The wasmtime task driver: configuration, pre-cache warm-up and task
      lifecycle of [wasmtime/driver.go], as a shallow embedding.

    The driver is a stateful Go object ([*WasmtimeDriverPlugin]); its methods
    are embedded as computations in a small state monad whose state is the
    plugin record.  A computation either returns (with the Go return values)
    or panics; both carry the plugin state reached.  Calls into libraries the
    driver links against (msgpack decoding, the file system behind
    [filepath.Walk], the wasmtime compiler, the gcache store) are answered by
    an explicit environment record [Env]. *)

From Stdlib Require Import ZArith List Bool Lia.
From Stdlib Require Import Strings.String Strings.Ascii Init.Byte.
From stdpp Require Import base option strings gmap.

Local Open Scope string_scope.
Local Open Scope Z_scope.
Import ListNotations.

(** ** Go values shared by every part of the model *)

(** A Go [error] value.  [fmt.Errorf] values are kept as the format string
    with the arguments of the call, so that what a message names can be read
    off the value; [Sentinel] is a package-level error variable of a library,
    [LibErr] an error produced inside a library; [nil] is [None] in
    [error]. *)
Inductive goerr : Type :=
| Sentinel (pkg var : string)
| ErrorsNew (msg : string)
| LibErr (msg : string)
| Errorf (format : string) (args : list fmtarg)
with fmtarg : Type :=
| ArgInt (z : Z)
| ArgStr (s : string)
| ArgErr (e : goerr).

Definition error : Type := option goerr.

(** [err != nil]. *)
Definition notNil (err : error) : bool :=
  match err with
  | Some _ => true
  | None => false
  end.

(** The result of running Go code from a state [S]: it returns [a], or it
    panics; the state reached is kept in both cases. *)
Inductive outcome (S A : Type) : Type :=
| Ret (a : A) (s : S)
| Panic (msg : string) (s : S).
Arguments Ret {S A} a s.
Arguments Panic {S A} msg s.

Definition final_state {S A : Type} (o : outcome S A) : S :=
  match o with
  | Ret _ s => s
  | Panic _ s => s
  end.

Definition nil_deref : string :=
  "runtime error: invalid memory address or nil pointer dereference".

(** 64-bit two's complement wrap-around of Go's [int64] arithmetic. *)
Definition wrap64 (z : Z) : Z := (z + 2 ^ 63) mod 2 ^ 64 - 2 ^ 63.

Module time.
(** [time.Duration] is an [int64] count of nanoseconds. *)
Definition Duration : Type := Z.
Definition Millisecond : Duration := 1000000.
Definition Second : Duration := 1000000000.
(** [Duration * Duration] in [int64]. *)
Definition mul (a b : Duration) : Duration := wrap64 (a * b).
(** [time.Time] as a count of nanoseconds; [Round] rounds to the nearest
    multiple of [d], halfway values up. *)
Definition Time : Type := Z.
Definition Round (d : Duration) (t : Time) : Time :=
  if d <=? 0 then t else ((t + d / 2) / d) * d.
End time.

Module strings.
(** [strings.HasSuffix]:
    [len(s) >= len(suffix) && s[len(s)-len(suffix):] == suffix]. *)
Definition HasSuffix (s suffix : string) : bool :=
  (String.length suffix <=? String.length s)%nat
  && String.eqb
       (String.substring (String.length s - String.length suffix)
                         (String.length suffix) s)
       suffix.
End strings.

(** ** The configuration structs of the driver *)

Module PreCacheConfig.
Record t : Type := mk {
  Enabled : bool;
  ModulesDir : string
}.
End PreCacheConfig.

Module ExpirationConfig.
Record t : Type := mk {
  Enabled : bool;
  EntryTTL : Z
}.
End ExpirationConfig.

Module CacheConfig.
Record t : Type := mk {
  Enabled : bool;
  Size : Z;
  Type_ : string;
  PreCache : PreCacheConfig.t;
  Expiration : ExpirationConfig.t
}.
End CacheConfig.

Module Config.
Record t : Type := mk {
  Cache : CacheConfig.t
}.
(** The zero value [Config{}]. *)
Definition zero : t :=
  mk (CacheConfig.mk false 0 ""
        (PreCacheConfig.mk false "") (ExpirationConfig.mk false 0)).
End Config.

Module IOBufferConfig.
Record t : Type := mk {
  Enabled : bool;
  Size : Z;
  InputValue : string;
  IOBufFuncName : string;
  Args : list Z
}.
End IOBufferConfig.

Module Main.
Record t : Type := mk {
  MainFuncName : string;
  Args : list Z
}.
End Main.

Module TaskConfig.
Record t : Type := mk {
  ModulePath : string;
  IOBuffer : IOBufferConfig.t;
  Main : Main.t
}.
End TaskConfig.

(** ** The libraries the driver calls, as far as the driver observes them *)

Module filepath.
(** [fs.FileInfo], reduced to the two methods the driver calls. *)
Record FileInfo : Type := mkFileInfo {
  Name : string;
  IsDir : bool
}.

(** The file tree below a path as [Walk] sees it: what [readDirNames]
    answers for a directory ([Some e] when it fails; the entries are in the
    sorted order [readDirNames] returns) and what [lstat] answers for each
    entry ([FsBroken] when it fails).  [FsFile] is any entry whose
    [FileInfo] is not a directory: a regular file, but also a symbolic link
    ([lstat] does not follow it), a socket or a device. *)
Inductive fsnode : Type :=
| FsFile (name : string)
| FsDir (name : string) (readErr : error) (entries : fsentries)
with fsentries : Type :=
| FsNil
| FsEntry (n : fsnode) (rest : fsentries)
| FsBroken (name : string) (e : goerr) (rest : fsentries).

Definition info (n : fsnode) : FileInfo :=
  match n with
  | FsFile name => mkFileInfo name false
  | FsDir name _ _ => mkFileInfo name true
  end.

Definition SkipDir : goerr := Sentinel "filepath" "SkipDir".
Definition SkipAll : goerr := Sentinel "filepath" "SkipAll".

Definition is_sentinel (pkg var : string) (e : error) : bool :=
  match e with
  | Some (Sentinel p v) => String.eqb p pkg && String.eqb v var
  | _ => false
  end.
Definition is_SkipDir : error -> bool := is_sentinel "filepath" "SkipDir".
Definition is_SkipAll : error -> bool := is_sentinel "filepath" "SkipAll".

(** The elements of a path between its separators, as
    [strings.Split(path, "/")] gives them. *)
Fixpoint split_path (s : string) : list string :=
  match s with
  | EmptyString => [EmptyString]
  | String c rest =>
      if Ascii.eqb c "/"
      then EmptyString :: split_path rest
      else match split_path rest with
           | e :: es => String c e :: es
           | [] => [String c EmptyString]
           end
  end.

(** An element that is neither empty nor [.]. *)
Definition is_real (e : string) : bool :=
  negb (String.eqb e "") && negb (String.eqb e ".").

(** One element added to the elements kept so far (last one first): [..]
    removes the element before it, unless there is none or it is a [..]
    itself; then it is dropped in a rooted path and kept otherwise. *)
Definition push_element (rooted : bool) (kept : list string) (e : string)
  : list string :=
  if String.eqb e ".." then
    match kept with
    | top :: below => if String.eqb top ".." then e :: kept else below
    | [] => if rooted then [] else [e]
    end
  else e :: kept.

Definition is_rooted (path : string) : bool :=
  match path with
  | String c _ => Ascii.eqb c "/"
  | EmptyString => false
  end.

(** [filepath.Clean] on a Unix path: separators are merged, [.] elements
    dropped, inner [..] elements removed with the element before them, [..]
    at the start of a rooted path dropped; the result ends in a slash only
    when it is the root, and the empty result is [.]. *)
Definition Clean (path : string) : string :=
  let kept :=
    fold_left (push_element (is_rooted path))
      (List.filter is_real (split_path path)) [] in
  let body := String.concat "/" (rev kept) in
  if is_rooted path then "/" ++ body
  else if String.eqb body "" then "." else body.

(** [filepath.Join(path, name)]: empty elements are ignored, the others are
    joined with a separator and the result is cleaned; no non-empty element
    gives the empty string. *)
Definition Join (path name : string) : string :=
  if String.eqb path "" then
    if String.eqb name "" then "" else Clean name
  else Clean (path ++ "/" ++ name).

Section Walk.
(** The variables the visitor closure captures. *)
Context {S : Type}.

(** [filepath.WalkFunc]; a nil [info] is [None]. *)
Definition WalkFunc : Type :=
  string -> option FileInfo -> error -> S -> outcome S error.

Variable walkFn : WalkFunc.

(** The unexported [walk] of package [filepath]. *)
Fixpoint walk (path : string) (n : fsnode) (s : S) : outcome S error :=
  match n with
  | FsFile _ => walkFn path (Some (info n)) None s
  | FsDir _ readErr entries =>
      match walkFn path (Some (info n)) readErr s with
      | Panic msg s1 => Panic msg s1
      | Ret err1 s1 =>
          if notNil readErr || notNil err1 then Ret err1 s1
          else walk_entries path entries s1
      end
  end
with walk_entries (path : string) (es : fsentries) (s : S)
  : outcome S error :=
  match es with
  | FsNil => Ret None s
  | FsBroken name e rest =>
      match walkFn (Join path name) None (Some e) s with
      | Panic msg s1 => Panic msg s1
      | Ret err s1 =>
          if notNil err && negb (is_SkipDir err) then Ret err s1
          else walk_entries path rest s1
      end
  | FsEntry n rest =>
      match walk (Join path (Name (info n))) n s with
      | Panic msg s1 => Panic msg s1
      | Ret err s1 =>
          if notNil err
             && (negb (IsDir (info n)) || negb (is_SkipDir err))
          then Ret err s1
          else walk_entries path rest s1
      end
  end.

(** [filepath.Walk]; [lstat] is what [os.Lstat(root)] answers. *)
Definition Walk (lstat : goerr + fsnode) (root : string) (s : S)
  : outcome S error :=
  let r :=
    match lstat with
    | inl e => walkFn root None (Some e) s
    | inr n => walk root n s
    end in
  match r with
  | Panic msg s1 => Panic msg s1
  | Ret err s1 =>
      if is_SkipDir err || is_SkipAll err then Ret None s1 else Ret err s1
  end.
End Walk.
Arguments WalkFunc S : clear implicits.
End filepath.

Module gcache.
Definition TYPE_SIMPLE : string := "simple".
Definition TYPE_LRU : string := "lru".
Definition TYPE_LFU : string := "lfu".
Definition TYPE_ARC : string := "arc".

Record CacheBuilder : Type := mkBuilder {
  tp : string;
  size : Z;
  expiration : option time.Duration
}.

(** [gcache.New(size)]: a builder of the simple type without expiration. *)
Definition New (size : Z) : CacheBuilder := mkBuilder TYPE_SIMPLE size None.

Definition Expiration (d : time.Duration) (cb : CacheBuilder) : CacheBuilder :=
  mkBuilder (tp cb) (size cb) (Some d).

Definition EvictType (t : string) (cb : CacheBuilder) : CacheBuilder :=
  mkBuilder t (size cb) (expiration cb).
Definition LFU : CacheBuilder -> CacheBuilder := EvictType TYPE_LFU.
Definition ARC : CacheBuilder -> CacheBuilder := EvictType TYPE_ARC.
Definition LRU : CacheBuilder -> CacheBuilder := EvictType TYPE_LRU.
Definition Simple : CacheBuilder -> CacheBuilder := EvictType TYPE_SIMPLE.

(** A built cache: the settings it was built with and its entries.  What
    [Set] does to the entries (admission, eviction) is the library's
    business and is answered by the environment. *)
Record Cache : Type := mkCache {
  built : CacheBuilder;
  items : list (string * list byte)
}.

(** [Build] panics on a non-positive size unless the type is simple, and
    on a type it does not know; [inl msg] is the panic. *)
Definition Build (cb : CacheBuilder) : string + Cache :=
  if (size cb <=? 0) && negb (String.eqb (tp cb) TYPE_SIMPLE)
  then inl "gcache: Cache size <= 0"
  else if String.eqb (tp cb) TYPE_SIMPLE || String.eqb (tp cb) TYPE_LRU
          || String.eqb (tp cb) TYPE_LFU || String.eqb (tp cb) TYPE_ARC
  then inr (mkCache cb [])
  else inl ("gcache: Unknown type " ++ tp cb).
End gcache.

Module wasmtime.
(** A compiled module, as the bytes of its compiled form. *)
Record Module_ : Type := mkModule { compiled : list byte }.

(** [wasmtime.Store] with the engine it was created on: whether epoch
    interruption is on, the engine's epoch and the store's deadline. *)
Record Store : Type := mkStore {
  epochInterruption : bool;
  epoch : Z;
  epochDeadline : Z
}.

(** [NewStore(NewEngineWithConfig(cfg))] followed by [SetEpochDeadline]. *)
Definition NewStore (epochInterruption : bool) : Store :=
  mkStore epochInterruption 0 0.
Definition SetEpochDeadline (delta : Z) (st : Store) : Store :=
  mkStore (epochInterruption st) (epoch st) (epoch st + delta).
End wasmtime.

Module base.
Record ClientDriverConfig : Type := mkClientDriverConfig {
  ClientMaxPort : Z;
  ClientMinPort : Z
}.
Record AgentConfig : Type := mkAgentConfig {
  Driver : option ClientDriverConfig
}.
Record Config : Type := mkConfig {
  PluginConfig : list byte;
  AgentConfig_ : option AgentConfig
}.
End base.

Module drivers.
(** [drivers.TaskState] is a string type with three constants. *)
Definition TaskState : Type := string.
Definition TaskStateUnknown : TaskState := "unknown".
Definition TaskStateRunning : TaskState := "running".
Definition TaskStateExited : TaskState := "exited".

Definition ErrTaskNotFound : goerr := Sentinel "drivers" "ErrTaskNotFound".

Record TaskConfig : Type := mkTaskConfig {
  ID : string;
  Name : string;
  rawDriverConfig : list byte
}.

Record ExitResult : Type := mkExitResult {
  ExitCode : Z;
  Signal : Z;
  OOMKilled : bool;
  Err : error
}.

Record TaskHandle : Type := mkTaskHandle {
  Version : Z;
  Config : option TaskConfig;
  State : TaskState;
  DriverState : list byte
}.

(** [NewTaskHandle(version)] is [&TaskHandle{Version: version}]. *)
Definition NewTaskHandle (version : Z) : TaskHandle :=
  mkTaskHandle version None "" [].

Record TaskStatus : Type := mkTaskStatus {
  status_ID : string;
  status_Name : string;
  status_State : TaskState;
  status_StartedAt : time.Time;
  status_ExitResult : option ExitResult
}.

(** The driver only ever returns a nil [*DriverNetwork]. *)
Inductive DriverNetwork : Type := mkDriverNetwork.
End drivers.

(** [TaskState] of the driver: what is encoded into the handle given back to
    the client ([ReattachConfig] is always the empty struct and is left
    out). *)
Module TaskState.
Record t : Type := mk {
  TaskConfig : drivers.TaskConfig;
  StartedAt : time.Time
}.
End TaskState.

Definition pluginName : string := "wasmtime".
Definition pluginVersion : string := "v0.1.0".
Definition taskHandleVersion : Z := 1.

(** ** Task handles, the task store and the plugin *)

(** Handles are shared by pointer between the task store and the goroutines
    of the task; [loc] is such a pointer into the [heap] of the plugin
    state.  Channels made by the driver are numbered. *)
Definition loc : Type := nat.
Definition chan : Type := nat.

(** The fields [StartTask] initialises, and [exitResult], which
    [handleWait] reads.  [wasmModulesCache] is the plugin's cache as it was
    when the task started; no method modelled here reads the cache through
    a handle. *)
Module taskHandle.
Record t : Type := mk {
  taskConfig : drivers.TaskConfig;
  procState : drivers.TaskState;
  startedAt : time.Time;
  modulePath : string;
  ioBufferConf : IOBufferConfig.t;
  mainFunc : Main.t;
  wasmModulesCache : option gcache.Cache;
  store : wasmtime.Store;
  completionCh : chan;
  exitResult : option drivers.ExitResult
}.
End taskHandle.

Inductive goroutine : Type :=
| go_run (h : loc)
| go_handleWait (h : loc) (ch : chan)
| go_handleTaskStats (interval : time.Duration) (ch : chan).

(** What the driver does to the world outside its own fields, in the order
    it does it. *)
Inductive event : Type :=
| EvLog (level msg : string)
| EvTasksSet (id : string) (h : loc)
| EvTasksDelete (id : string)
| EvStop (h : loc)
| EvGo (g : goroutine)
| EvNewModuleFromFile (path : string)
| EvSerialize (path : string)
| EvCacheSet (key : string).

(** [WasmtimeDriverPlugin].  [eventer], [ctx], [signalShutdown] and [logger]
    are fixed at [NewPlugin] and never assigned afterwards; log calls are
    recorded in [trace].  [heap], [chans] and [trace] belong to the model:
    the handles allocated so far, the number of channels made, and the
    events so far (oldest first). *)
Record WasmtimeDriverPlugin : Type := mkPlugin {
  config : Config.t;
  nomadConfig : option base.ClientDriverConfig;
  tasks : gmap string loc;
  modulesCache : option gcache.Cache;
  heap : gmap loc taskHandle.t;
  chans : nat;
  trace : list event
}.

(** [NewPlugin]: the config is [&Config{}], the store is empty, the cache
    is nil. *)
Definition NewPlugin : WasmtimeDriverPlugin :=
  mkPlugin Config.zero None ∅ None ∅ 0%nat [].

(** The answers of the libraries and of the machine the driver runs on. *)
Record Env : Type := mkEnv {
  (** [base.MsgPackDecode(buf, &config)] *)
  MsgPackDecode : list byte -> goerr + Config.t;
  (** [cfg.DecodeDriverConfig(&driverConfig)] *)
  DecodeDriverConfig : drivers.TaskConfig -> goerr + TaskConfig.t;
  (** the encoding [handle.SetDriverState(&driverState)] stores *)
  MsgPackEncode : TaskState.t -> goerr + list byte;
  (** [os.Lstat] of a root path, with the tree below it *)
  Lstat : string -> goerr + filepath.fsnode;
  (** [wasmtime.NewModuleFromFile(engine, path)] *)
  NewModuleFromFile : string -> goerr + wasmtime.Module_;
  (** [module.Serialize()] *)
  Serialize : wasmtime.Module_ -> goerr + list byte;
  (** [cache.Set(key, value)] *)
  cache_Set : gcache.Cache -> string -> list byte -> error * gcache.Cache;
  (** [time.Now()] *)
  time_Now : time.Time
}.

(** ** The monad of driver methods *)

Definition M (A : Type) : Type :=
  WasmtimeDriverPlugin -> outcome WasmtimeDriverPlugin A.

Definition ret {A : Type} (a : A) : M A := fun d => Ret a d.

Definition bind {A B : Type} (m : M A) (k : A -> M B) : M B :=
  fun d =>
    match m d with
    | Ret a d1 => k a d1
    | Panic msg d1 => Panic msg d1
    end.

Definition panic {A : Type} (msg : string) : M A := fun d => Panic msg d.

Definition gets {A : Type} (f : WasmtimeDriverPlugin -> A) : M A :=
  fun d => Ret (f d) d.

Definition modify (f : WasmtimeDriverPlugin -> WasmtimeDriverPlugin) : M unit :=
  fun d => Ret tt (f d).

Declare Scope go_scope.
Delimit Scope go_scope with go.
Notation "x <~ m ;; k" := (bind m (fun x => k))
  (at level 100, m at next level, right associativity) : go_scope.
Notation "m ;;; k" := (bind m (fun _ => k))
  (at level 100, right associativity) : go_scope.
Local Open Scope go_scope.

Definition set_config (c : Config.t) (d : WasmtimeDriverPlugin) :=
  mkPlugin c (nomadConfig d) (tasks d) (modulesCache d) (heap d) (chans d)
    (trace d).
Definition set_nomadConfig (n : option base.ClientDriverConfig)
  (d : WasmtimeDriverPlugin) :=
  mkPlugin (config d) n (tasks d) (modulesCache d) (heap d) (chans d)
    (trace d).
Definition set_tasks (t : gmap string loc) (d : WasmtimeDriverPlugin) :=
  mkPlugin (config d) (nomadConfig d) t (modulesCache d) (heap d) (chans d)
    (trace d).
Definition set_modulesCache (c : option gcache.Cache)
  (d : WasmtimeDriverPlugin) :=
  mkPlugin (config d) (nomadConfig d) (tasks d) c (heap d) (chans d)
    (trace d).
Definition set_heap (h : gmap loc taskHandle.t) (d : WasmtimeDriverPlugin) :=
  mkPlugin (config d) (nomadConfig d) (tasks d) (modulesCache d) h (chans d)
    (trace d).
Definition set_chans (n : nat) (d : WasmtimeDriverPlugin) :=
  mkPlugin (config d) (nomadConfig d) (tasks d) (modulesCache d) (heap d) n
    (trace d).
Definition set_trace (t : list event) (d : WasmtimeDriverPlugin) :=
  mkPlugin (config d) (nomadConfig d) (tasks d) (modulesCache d) (heap d)
    (chans d) t.

Definition emit (e : event) : M unit :=
  modify (fun d => set_trace (trace d ++ [e])%list d).

(** [make(chan ...)]. *)
Definition make_chan : M chan :=
  fun d => Ret (chans d) (set_chans (S (chans d)) d).

(** [&taskHandle{...}]: a fresh heap cell, one past every cell in use. *)
Definition fresh_loc (h : gmap loc taskHandle.t) : loc :=
  S (map_fold (fun l _ acc => Nat.max l acc) 0%nat h).

Definition new_handle (h : taskHandle.t) : M loc :=
  fun d =>
    let l := fresh_loc (heap d) in
    Ret l (set_heap (<[l := h]> (heap d)) d).

(** ** The task store and the handle methods

    [taskStore] and the methods of [taskHandle] are declared in files of the
    package other than [driver.go]. *)

(** Modelled from the spec: [taskStore.Get], the registry's
    [lookup(id) -> Task option]. *)
Definition tasks_Get (id : string) : M (option loc) :=
  gets (fun d => tasks d !! id).

(** Modelled from the spec: [taskStore.Set], the registry's
    [register(id, Task)], which keeps at most one task per identifier: an
    identifier already present keeps its task.  The driver ignores what
    [Set] answers. *)
Definition tasks_Set (id : string) (h : loc) : M unit :=
  emit (EvTasksSet id h) ;;;
  modify (fun d =>
            match tasks d !! id with
            | Some _ => d
            | None => set_tasks (<[id := h]> (tasks d)) d
            end).

(** Modelled from the spec: [taskStore.Delete], the registry's
    [remove(id)]. *)
Definition tasks_Delete (id : string) : M unit :=
  emit (EvTasksDelete id) ;;;
  modify (fun d => set_tasks (delete id (tasks d)) d).

(** Reading through a handle pointer; a pointer without a cell behaves as
    nil. *)
Definition deref (h : loc) : M taskHandle.t :=
  fun d =>
    match heap d !! h with
    | Some v => Ret v d
    | None => Panic nil_deref d
    end.

Definition set_store (s : wasmtime.Store) (h : taskHandle.t) :=
  taskHandle.mk (taskHandle.taskConfig h) (taskHandle.procState h)
    (taskHandle.startedAt h) (taskHandle.modulePath h)
    (taskHandle.ioBufferConf h) (taskHandle.mainFunc h)
    (taskHandle.wasmModulesCache h) s (taskHandle.completionCh h)
    (taskHandle.exitResult h).

(** Modelled from the spec: [taskHandle.IsRunning], whether the task's state
    is Running. *)
Definition IsRunning (h : taskHandle.t) : bool :=
  String.eqb (taskHandle.procState h) drivers.TaskStateRunning.

(** Modelled from the spec: the effect of [taskHandle.stop] on the handle:
    a no-op on an exited task, otherwise the interruption is triggered by
    incrementing the deadline counter the store was armed with. *)
Definition stopped (h : taskHandle.t) : taskHandle.t :=
  if String.eqb (taskHandle.procState h) drivers.TaskStateExited then h
  else
    let s := taskHandle.store h in
    set_store (wasmtime.mkStore (wasmtime.epochInterruption s)
                 (wasmtime.epoch s + 1) (wasmtime.epochDeadline s)) h.

(** The call [handle.stop()]. *)
Definition stop (h : loc) : M unit :=
  emit (EvStop h) ;;;
  v <~ deref h ;;
  modify (fun d => set_heap (<[h := stopped v]> (heap d)) d).

(** Modelled from the spec: [taskHandle.TaskStatus], the snapshot
    [status() -> {state, startedAt, exitResult?}]. *)
Definition TaskStatus (h : taskHandle.t) : drivers.TaskStatus :=
  drivers.mkTaskStatus
    (drivers.ID (taskHandle.taskConfig h))
    (drivers.Name (taskHandle.taskConfig h))
    (taskHandle.procState h)
    (taskHandle.startedAt h)
    (taskHandle.exitResult h).

(** ** The driver methods of [driver.go] *)

Section Driver.
Variable E : Env.

(** The function literal [configureCache] hands to [filepath.Walk]; the
    captured variable is [modulesPath].  [info.IsDir()] on a nil [info]
    is a nil dereference. *)
Definition preCacheVisitor : filepath.WalkFunc (list string) :=
  fun path info err modulesPath =>
    match info with
    | None => Panic nil_deref modulesPath
    | Some i =>
        if negb (filepath.IsDir i)
           && strings.HasSuffix (filepath.Name i) ".wasm"
        then Ret None (modulesPath ++ [path])%list
        else Ret None modulesPath
    end.

(** [d.modulesCache.Set(key, value)]; a nil cache is a nil dereference. *)
Definition modulesCache_Set (key : string) (value : list byte) : M error :=
  fun d =>
    match modulesCache d with
    | None => Panic nil_deref d
    | Some c =>
        let '(err, c1) := cache_Set E c key value in
        Ret err (set_modulesCache (Some c1) d)
    end.

(** The [for _, modulePath := range modulesPath] loop of
    [configureCache]. *)
Fixpoint preCacheLoop (modulesPath : list string) : M error :=
  match modulesPath with
  | [] => ret None
  | modulePath :: rest =>
      emit (EvNewModuleFromFile modulePath) ;;;
      match NewModuleFromFile E modulePath with
      | inl err =>
          ret (Some (Errorf "unable to load WASM module (%v) from file: %v"
                       [ArgStr modulePath; ArgErr err]))
      | inr wasmModule =>
          emit (EvSerialize modulePath) ;;;
          match Serialize E wasmModule with
          | inl err =>
              ret (Some (Errorf "unable to serialize WASM module (%v): %v"
                           [ArgStr modulePath; ArgErr err]))
          | inr serModule =>
              emit (EvCacheSet modulePath) ;;;
              err <~ modulesCache_Set modulePath serModule ;;
              if notNil err
              then ret (Some (Errorf "unable to cache WASM module (%v)"
                                [ArgStr modulePath]))
              else
                emit (EvLog "trace" "WASM module pre-cached") ;;;
                preCacheLoop rest
          end
      end
  end.

(** The [switch cacheConf.Type]; [None] is the [default] branch. *)
Definition selectType (t : string) (cb : gcache.CacheBuilder)
  : option gcache.CacheBuilder :=
  if String.eqb t gcache.TYPE_LFU then Some (gcache.LFU cb)
  else if String.eqb t gcache.TYPE_ARC then Some (gcache.ARC cb)
  else if String.eqb t gcache.TYPE_LRU then Some (gcache.LRU cb)
  else if String.eqb t gcache.TYPE_SIMPLE then Some (gcache.Simple cb)
  else None.

Definition configureCache : M error :=
  cacheConf <~ gets (fun d => Config.Cache (config d)) ;;
  let cacheBuilder := gcache.New (CacheConfig.Size cacheConf) in
  let cacheBuilder :=
    if ExpirationConfig.Enabled (CacheConfig.Expiration cacheConf)
    then gcache.Expiration
           (time.mul time.Second
              (ExpirationConfig.EntryTTL (CacheConfig.Expiration cacheConf)))
           cacheBuilder
    else cacheBuilder in
  match selectType (CacheConfig.Type_ cacheConf) cacheBuilder with
  | None =>
      ret (Some (Errorf "unexpected cache type specified, expected types: [lfu, arc, lru, simple], but specififed %s"
                   [ArgStr (CacheConfig.Type_ cacheConf)]))
  | Some cacheBuilder =>
      match gcache.Build cacheBuilder with
      | inl msg => panic msg
      | inr c =>
          modify (set_modulesCache (Some c)) ;;;
          if PreCacheConfig.Enabled (CacheConfig.PreCache cacheConf) then
            let dir := PreCacheConfig.ModulesDir (CacheConfig.PreCache cacheConf) in
            match filepath.Walk preCacheVisitor (Lstat E dir) dir [] with
            | Panic msg _ => panic msg
            | Ret (Some err) _ =>
                ret (Some (Errorf "unable to get WASM modules for pre-cache from %s directory: %v"
                             [ArgStr dir; ArgErr err]))
            | Ret None modulesPath =>
                if Z.of_nat (length modulesPath) >? CacheConfig.Size cacheConf
                then
                  ret (Some (Errorf "cache size (%v) must not be less then number of pre-cached modules (%v)"
                               [ArgInt (CacheConfig.Size cacheConf);
                                ArgInt (Z.of_nat (length modulesPath))]))
                else
                  err <~ preCacheLoop modulesPath ;;
                  match err with
                  | Some e => ret (Some e)
                  | None =>
                      (if ExpirationConfig.Enabled (CacheConfig.Expiration cacheConf)
                       then emit (EvLog "warn" "since expiration enabled for cache all pre-cached modules also will be removed from cache after TTL")
                       else ret tt) ;;;
                      ret None
                  end
            end
          else ret None
      end
  end.

(** [var config Config] followed by the decoding of a non-empty
    [cfg.PluginConfig] into it. *)
Definition decodePluginConfig (cfg : base.Config) : goerr + Config.t :=
  if (length (base.PluginConfig cfg) =? 0)%nat then inr Config.zero
  else MsgPackDecode E (base.PluginConfig cfg).

Definition SetConfig (cfg : base.Config) : M error :=
  match decodePluginConfig cfg with
  | inl err => ret (Some err)
  | inr config_ =>
      modify (set_config config_) ;;;
      cacheConf <~ gets (fun d => Config.Cache (config d)) ;;
      if CacheConfig.Size cacheConf <=? 0 then
        ret (Some (Errorf "cache size must be > 0, but specified %v"
                     [ArgInt (CacheConfig.Size cacheConf)]))
      else if ExpirationConfig.Enabled (CacheConfig.Expiration cacheConf)
              && (ExpirationConfig.EntryTTL (CacheConfig.Expiration cacheConf) <=? 0)
      then
        ret (Some (Errorf "cache entry time-to-live must be > 0, but specified %v"
                     [ArgInt (ExpirationConfig.EntryTTL
                                (CacheConfig.Expiration cacheConf))]))
      else
        match base.AgentConfig_ cfg with
        | Some a => modify (set_nomadConfig (base.Driver a))
        | None => ret tt
        end ;;;
        if CacheConfig.Enabled cacheConf then
          err <~ configureCache ;;
          match err with
          | Some e => ret (Some e)
          | None => ret None
          end
        else ret None
  end.
End Driver.

Section Lifecycle.
Variable E : Env.

Definition StartTask (cfg : drivers.TaskConfig)
  : M (option drivers.TaskHandle * option drivers.DriverNetwork * error) :=
  found <~ tasks_Get (drivers.ID cfg) ;;
  match found with
  | Some _ =>
      ret (None, None,
           Some (Errorf "task with ID %q already started"
                   [ArgStr (drivers.ID cfg)]))
  | None =>
      match DecodeDriverConfig E cfg with
      | inl err =>
          ret (None, None,
               Some (Errorf "failed to decode driver config: %v" [ArgErr err]))
      | inr driverConfig =>
          emit (EvLog "info" "starting task") ;;;
          let handle :=
            drivers.mkTaskHandle taskHandleVersion (Some cfg)
              (drivers.State (drivers.NewTaskHandle taskHandleVersion))
              (drivers.DriverState (drivers.NewTaskHandle taskHandleVersion)) in
          let store :=
            wasmtime.SetEpochDeadline 1 (wasmtime.NewStore true) in
          cache <~ gets modulesCache ;;
          completionCh <~ make_chan ;;
          let startedAt := time.Round time.Millisecond (time_Now E) in
          h <~ new_handle
                 (taskHandle.mk cfg drivers.TaskStateRunning startedAt
                    (TaskConfig.ModulePath driverConfig)
                    (TaskConfig.IOBuffer driverConfig)
                    (TaskConfig.Main driverConfig)
                    cache store completionCh None) ;;
          let driverState := TaskState.mk cfg startedAt in
          match MsgPackEncode E driverState with
          | inl err =>
              ret (None, None,
                   Some (Errorf "failed to set driver state: %v" [ArgErr err]))
          | inr encoded =>
              tasks_Set (drivers.ID cfg) h ;;;
              emit (EvGo (go_run h)) ;;;
              ret (Some (drivers.mkTaskHandle (drivers.Version handle)
                           (drivers.Config handle) (drivers.State handle)
                           encoded),
                   None, None)
          end
      end
  end.

Definition RecoverTask (_handle : drivers.TaskHandle) : M error := ret None.

Definition WaitTask (taskID : string) : M (option chan * error) :=
  found <~ tasks_Get taskID ;;
  match found with
  | None => ret (None, Some drivers.ErrTaskNotFound)
  | Some handle =>
      ch <~ make_chan ;;
      emit (EvGo (go_handleWait handle ch)) ;;;
      ret (Some ch, None)
  end.

Definition StopTask (taskID : string) (_timeout : time.Duration)
  (_signal : string) : M error :=
  found <~ tasks_Get taskID ;;
  match found with
  | None => ret (Some drivers.ErrTaskNotFound)
  | Some handle => stop handle ;;; ret None
  end.

Definition DestroyTask (taskID : string) (force : bool) : M error :=
  found <~ tasks_Get taskID ;;
  match found with
  | None => ret (Some drivers.ErrTaskNotFound)
  | Some handle =>
      v <~ deref handle ;;
      if IsRunning v && negb force then
        ret (Some (ErrorsNew "cannot destroy running task"))
      else
        v1 <~ deref handle ;;
        (if IsRunning v1 && force then stop handle else ret tt) ;;;
        tasks_Delete taskID ;;;
        ret None
  end.

Definition InspectTask (taskID : string)
  : M (option drivers.TaskStatus * error) :=
  found <~ tasks_Get taskID ;;
  match found with
  | None => ret (None, Some drivers.ErrTaskNotFound)
  | Some handle => v <~ deref handle ;; ret (Some (TaskStatus v), None)
  end.

Definition TaskStats (taskID : string) (interval : time.Duration)
  : M (option chan * error) :=
  found <~ tasks_Get taskID ;;
  match found with
  | None => ret (None, Some drivers.ErrTaskNotFound)
  | Some _ =>
      ch <~ make_chan ;;
      emit (EvGo (go_handleTaskStats interval ch)) ;;;
      ret (Some ch, None)
  end.


Definition SignalTask (taskID : string) (_signal : string) : M error :=
  found <~ tasks_Get taskID ;;
  match found with
  | None => ret (Some drivers.ErrTaskNotFound)
  | Some _ =>
      ret (Some (ErrorsNew "this driver does not support signal forwarding"))
  end.

Definition ExecTask (_taskID : string) (_cmd : list string)
  (_timeout : time.Duration) : M (option unit * error) :=
  ret (None, Some (ErrorsNew "this driver does not support exec")).
End Lifecycle.

(** ** Concrete environments and inputs used by the examples *)

Module Examples.
Definition no_such_file : goerr := LibErr "no such file or directory".
Definition bad_msgpack : goerr := LibErr "msgpack decode error".

Definition cacheConf (enabled : bool) (size : Z) (t : string)
  (pre : bool) (dir : string) (exp : bool) (ttl : Z) : Config.t :=
  Config.mk (CacheConfig.mk enabled size t (PreCacheConfig.mk pre dir)
               (ExpirationConfig.mk exp ttl)).

(** The defaults of [configSpec]. *)
Definition defaultConfig : Config.t :=
  cacheConf true 5 "lfu" false "" true 600.

Definition taskConf : TaskConfig.t :=
  TaskConfig.mk "/modules/sum.wasm"
    (IOBufferConfig.mk false 4096 "" "alloc" [])
    (Main.mk "sum" [123456; 678910]).

(** [/modules] holds [a.wasm], [b.wasm], [notes.txt] and a directory
    [sub] with [c.wasm]. *)
Definition modulesTree : filepath.fsnode :=
  filepath.FsDir "modules" None
    (filepath.FsEntry (filepath.FsFile "a.wasm")
       (filepath.FsEntry (filepath.FsFile "b.wasm")
          (filepath.FsEntry (filepath.FsFile "notes.txt")
             (filepath.FsEntry
                (filepath.FsDir "sub" None
                   (filepath.FsEntry (filepath.FsFile "c.wasm") filepath.FsNil))
                filepath.FsNil)))).

(** A simple cache: [Set] replaces or appends and never fails. *)
Definition simpleSet (c : gcache.Cache) (k : string) (v : list byte)
  : error * gcache.Cache :=
  (None,
   gcache.mkCache (gcache.built c)
     (filter (fun kv => negb (String.eqb (fst kv) k)) (gcache.items c)
      ++ [(k, v)])%list).

(** An environment in which every library call succeeds; the plugin
    configuration decodes to [c] and the only readable module file that
    does not compile is [b.wasm] when [bad_b] is set. *)
Definition env (c : Config.t) (bad_b : bool) : Env :=
  mkEnv
    (fun _ => inr c)
    (fun _ => inr taskConf)
    (fun _ => inr [x00])
    (fun root =>
       if String.eqb root "/modules" then inr modulesTree else inl no_such_file)
    (fun path =>
       if bad_b && String.eqb path "/modules/b.wasm"
       then inl (LibErr "invalid wasm")
       else inr (wasmtime.mkModule [x01]))
    (fun m => inr (wasmtime.compiled m))
    simpleSet
    1700000000123456789.

(** An environment whose driver-config decoding fails. *)
Definition env_bad_task : Env :=
  mkEnv
    (fun _ => inr defaultConfig)
    (fun _ => inl bad_msgpack)
    (fun _ => inr [x00])
    (fun _ => inl no_such_file)
    (fun _ => inr (wasmtime.mkModule [x01]))
    (fun m => inr (wasmtime.compiled m))
    simpleSet
    1700000000123456789.

(** An environment with a later clock reading and another encoding of the
    driver state. *)
Definition env_later : Env :=
  mkEnv
    (fun _ => inr defaultConfig)
    (fun _ => inr taskConf)
    (fun _ => inr [x07])
    (fun _ => inl no_such_file)
    (fun _ => inr (wasmtime.mkModule [x01]))
    (fun m => inr (wasmtime.compiled m))
    simpleSet
    1700000098999600000.

Definition cfgBytes : base.Config := base.mkConfig [x81] None.
Definition task1 : drivers.TaskConfig := drivers.mkTaskConfig "t1" "sum-numbers" [x80].

(** The plugin after [task1] has been started on a new plugin. *)
Definition started : WasmtimeDriverPlugin :=
  final_state (StartTask (env defaultConfig false) task1 NewPlugin).
End Examples.

(** ** Vocabulary of the statements *)

(** The handle [StartTask] builds for [cfg] in state [d]. *)
Definition startedHandle (E : Env) (cfg : drivers.TaskConfig)
  (driverConfig : TaskConfig.t) (d : WasmtimeDriverPlugin) : taskHandle.t :=
  taskHandle.mk cfg drivers.TaskStateRunning
    (time.Round time.Millisecond (time_Now E))
    (TaskConfig.ModulePath driverConfig)
    (TaskConfig.IOBuffer driverConfig)
    (TaskConfig.Main driverConfig)
    (modulesCache d)
    (wasmtime.SetEpochDeadline 1 (wasmtime.NewStore true))
    (chans d) None.

(** The four cache types [configureCache] knows. *)
Definition validType (t : string) : bool :=
  String.eqb t gcache.TYPE_LFU || String.eqb t gcache.TYPE_ARC
  || String.eqb t gcache.TYPE_LRU || String.eqb t gcache.TYPE_SIMPLE.

(** The cache [configureCache] builds for a configuration of a valid type. *)
Definition builtCache (cacheConf : CacheConfig.t) : gcache.Cache :=
  gcache.mkCache
    (gcache.mkBuilder (CacheConfig.Type_ cacheConf) (CacheConfig.Size cacheConf)
       (if ExpirationConfig.Enabled (CacheConfig.Expiration cacheConf)
        then Some (time.mul time.Second
                     (ExpirationConfig.EntryTTL (CacheConfig.Expiration cacheConf)))
        else None))
    [].

(** The modules the directory walk of [configureCache] finds below [dir]. *)
Definition discover (E : Env) (dir : string) : outcome (list string) error :=
  filepath.Walk preCacheVisitor (Lstat E dir) dir [].

(** The plugin after [SetConfig] has stored the Nomad agent configuration
    of [cfg], if there is one. *)
Definition withAgent (cfg : base.Config) (d : WasmtimeDriverPlugin)
  : WasmtimeDriverPlugin :=
  match base.AgentConfig_ cfg with
  | Some a => set_nomadConfig (base.Driver a) d
  | None => d
  end.

(** What a computation answers, without the state. *)
Definition returned {S A : Type} (o : outcome S A) : A + string :=
  match o with
  | Ret a _ => inl a
  | Panic msg _ => inr msg
  end.

Definition map_state {S A : Type} (f : S -> S) (o : outcome S A) : outcome S A :=
  match o with
  | Ret a s => Ret a (f s)
  | Panic msg s => Panic msg (f s)
  end.

(** [E] with another answer of the plugin-configuration decoder. *)
Definition withDecoded (E : Env) (c : Config.t) : Env :=
  mkEnv (fun _ => inr c) (DecodeDriverConfig E) (MsgPackEncode E) (Lstat E)
    (NewModuleFromFile E) (Serialize E) (cache_Set E) (time_Now E).

(** A configuration with another entry TTL. *)
Definition withTTL (ttl : Z) (c : Config.t) : Config.t :=
  let cc := Config.Cache c in
  Config.mk
    (CacheConfig.mk (CacheConfig.Enabled cc) (CacheConfig.Size cc)
       (CacheConfig.Type_ cc) (CacheConfig.PreCache cc)
       (ExpirationConfig.mk
          (ExpirationConfig.Enabled (CacheConfig.Expiration cc)) ttl)).

(** Whether warming [p] up fails when the cache is [c]: the file does not
    load, or the module does not serialize, or [Set] answers an error. *)
Definition module_fails (E : Env) (c : option gcache.Cache) (p : string) : bool :=
  match NewModuleFromFile E p with
  | inl _ => true
  | inr m =>
      match Serialize E m with
      | inl _ => true
      | inr ser =>
          match c with
          | Some c => notNil (fst (cache_Set E c p ser))
          | None => false
          end
      end
  end.

(** The formats of the three errors of the warm-up loop. *)
Definition warmupFormats : list string :=
  ["unable to load WASM module (%v) from file: %v";
   "unable to serialize WASM module (%v): %v";
   "unable to cache WASM module (%v)"].

(** The module path an event of the warm-up loop is about. *)
Definition event_path (e : event) : option string :=
  match e with
  | EvNewModuleFromFile p | EvSerialize p | EvCacheSet p => Some p
  | _ => None
  end.

(** What a walk with [preCacheVisitor] can answer: nil, or the panic of the
    nil dereference. *)
Definition nil_or_nil_deref (o : outcome (list string) error) : Prop :=
  (exists s, o = Ret None s) \/ (exists s, o = Panic nil_deref s).

(** The driver state [StartTask] encodes for [cfg]. *)
Definition driverStateOf (E : Env) (cfg : drivers.TaskConfig) : TaskState.t :=
  TaskState.mk cfg (time.Round time.Millisecond (time_Now E)).

(** ** Sequences of driver calls *)

(** One call of the plugin's RPC surface with its arguments (contexts are
    not modelled). *)
Inductive call : Type :=
| CallSetConfig (cfg : base.Config)
| CallStartTask (cfg : drivers.TaskConfig)
| CallRecoverTask (handle : drivers.TaskHandle)
| CallWaitTask (taskID : string)
| CallStopTask (taskID : string) (timeout : time.Duration) (signal : string)
| CallDestroyTask (taskID : string) (force : bool)
| CallInspectTask (taskID : string)
| CallTaskStats (taskID : string) (interval : time.Duration)
| CallSignalTask (taskID signal : string)
| CallExecTask (taskID : string) (cmd : list string) (timeout : time.Duration).

Definition is_SetConfig (c : call) : bool :=
  match c with
  | CallSetConfig _ => true
  | _ => false
  end.

(** A computation run for its effect on the plugin. *)
Definition forget {A : Type} (m : M A) : M unit :=
  fun d =>
    match m d with
    | Ret _ d1 => Ret tt d1
    | Panic msg d1 => Panic msg d1
    end.

Definition do_call (E : Env) (c : call) : M unit :=
  match c with
  | CallSetConfig cfg => forget (SetConfig E cfg)
  | CallStartTask cfg => forget (StartTask E cfg)
  | CallRecoverTask handle => forget (RecoverTask handle)
  | CallWaitTask taskID => forget (WaitTask taskID)
  | CallStopTask taskID timeout signal => forget (StopTask taskID timeout signal)
  | CallDestroyTask taskID force => forget (DestroyTask taskID force)
  | CallInspectTask taskID => forget (InspectTask taskID)
  | CallTaskStats taskID interval => forget (TaskStats taskID interval)
  | CallSignalTask taskID signal => forget (SignalTask taskID signal)
  | CallExecTask taskID cmd timeout => forget (ExecTask taskID cmd timeout)
  end.

(** The plugin after a sequence of calls on a new plugin, each answered by
    its own environment.  A call that panics is kept with the state it
    reached, which only adds states. *)
Definition after (cs : list (Env * call)) : WasmtimeDriverPlugin :=
  fold_left (fun d ec => final_state (do_call (fst ec) (snd ec) d)) cs NewPlugin.

(** Every registered id refers to an allocated handle whose task
    configuration carries that id. *)
Definition store_ok (d : WasmtimeDriverPlugin) : Prop :=
  forall id l,
    tasks d !! id = Some l ->
    exists v, heap d !! l = Some v /\ drivers.ID (taskHandle.taskConfig v) = id.

(** The ways a call changes the task store and the handles. *)
Definition store_move (d d' : WasmtimeDriverPlugin) : Prop :=
  (tasks d' = tasks d /\ heap d' = heap d)
  \/ (exists v,
        tasks d' = tasks d /\ heap d' = <[fresh_loc (heap d) := v]> (heap d))
  \/ (exists v,
        tasks d !! drivers.ID (taskHandle.taskConfig v) = None
        /\ tasks d' = <[drivers.ID (taskHandle.taskConfig v) := fresh_loc (heap d)]> (tasks d)
        /\ heap d' = <[fresh_loc (heap d) := v]> (heap d))
  \/ (exists l v,
        heap d !! l = Some v
        /\ heap d' = <[l := stopped v]> (heap d)
        /\ (tasks d' = tasks d \/ exists id, tasks d' = delete id (tasks d)))
  \/ (exists id, tasks d' = delete id (tasks d) /\ heap d' = heap d).

(** ** The goroutine of a task

    [taskHandle.run], the body of the goroutine [StartTask] spawns, is
    declared in a file of the package other than [driver.go]. *)

Definition set_exited (r : drivers.ExitResult) (h : taskHandle.t) : taskHandle.t :=
  taskHandle.mk (taskHandle.taskConfig h) drivers.TaskStateExited
    (taskHandle.startedAt h) (taskHandle.modulePath h)
    (taskHandle.ioBufferConf h) (taskHandle.mainFunc h)
    (taskHandle.wasmModulesCache h) (taskHandle.store h)
    (taskHandle.completionCh h) (Some r).

(** Modelled from the spec: the internal completion of [taskHandle.run],
    "Running→Exited(Completed|Faulted) once the call protocol returns;
    signals a one-shot completion channel/event exactly once; idempotent — a
    second internal completion signal must never fire".  The handle becomes
    exited and keeps the result of the call (an exit after [stop()] is the
    return of the interrupted call); on a handle that has exited nothing
    happens. *)
Definition completed (r : drivers.ExitResult) (h : taskHandle.t) : taskHandle.t :=
  if String.eqb (taskHandle.procState h) drivers.TaskStateExited then h
  else set_exited r h.

(** The return, with the result [r], of the engine call in the goroutine
    [h.run()] of the handle [h]. *)
Definition run_returns (h : loc) (r : drivers.ExitResult) : M unit :=
  v <~ deref h ;;
  modify (fun d => set_heap (<[h := completed r v]> (heap d)) d).

(** One step of a run of the plugin: a call of one of its methods, or the
    return of the engine call of a task's goroutine. *)
Inductive step : Type :=
| StepCall (E : Env) (c : call)
| StepRunReturns (h : loc) (r : drivers.ExitResult).

Definition do_step (s : step) : M unit :=
  match s with
  | StepCall E c => do_call E c
  | StepRunReturns h r => run_returns h r
  end.

Definition run_steps (steps : list step) (d : WasmtimeDriverPlugin)
  : WasmtimeDriverPlugin :=
  fold_left (fun d s => final_state (do_step s d)) steps d.

(** Whether the handle [h] is allocated and in the state [st]. *)
Definition has_state (st : drivers.TaskState) (h : loc) (d : WasmtimeDriverPlugin)
  : bool :=
  match heap d !! h with
  | Some v => String.eqb (taskHandle.procState v) st
  | None => false
  end.

(** Whether the handle [h] is running in [d] and exited in [d'], and the
    number of steps of a run in which it goes from the one to the other. *)
Definition exits (h : loc) (d d' : WasmtimeDriverPlugin) : bool :=
  has_state drivers.TaskStateRunning h d && has_state drivers.TaskStateExited h d'.

Fixpoint exit_count (h : loc) (steps : list step) (d : WasmtimeDriverPlugin)
  : nat :=
  match steps with
  | [] => 0%nat
  | s :: rest =>
      ((if exits h d (final_state (do_step s d)) then 1 else 0)
       + exit_count h rest (final_state (do_step s d)))%nat
  end.

Definition is_return_of (h : loc) (s : step) : bool :=
  match s with
  | StepRunReturns h' _ => Nat.eqb h' h
  | StepCall _ _ => false
  end.

(** ** Vocabulary of the configuration checks and of the warm-up *)

(** The two checks [SetConfig] makes itself. *)
Definition passes_checks (c : Config.t) : bool :=
  (0 <? CacheConfig.Size (Config.Cache c))
  && negb (ExpirationConfig.Enabled (CacheConfig.Expiration (Config.Cache c))
           && (ExpirationConfig.EntryTTL (CacheConfig.Expiration (Config.Cache c)) <=? 0)).

(** A configuration that passes the checks and, with the cache enabled, has
    a known cache type. *)
Definition acceptable (c : Config.t) : bool :=
  passes_checks c
  && (negb (CacheConfig.Enabled (Config.Cache c))
      || validType (CacheConfig.Type_ (Config.Cache c))).

(** The events of warming the modules [mp] up, all with success. *)
Definition warmupEvents (mp : list string) : list event :=
  flat_map
    (fun p => [EvNewModuleFromFile p; EvSerialize p; EvCacheSet p;
               EvLog "trace" "WASM module pre-cached"])
    mp.

(** The cache after [Set] has been called for the module [p] with its
    serialized form, and after it has been called for each module of [mp] in
    turn. *)
Definition warm_one (E : Env) (c : gcache.Cache) (p : string) : gcache.Cache :=
  match NewModuleFromFile E p with
  | inl _ => c
  | inr m =>
      match Serialize E m with
      | inl _ => c
      | inr ser => snd (cache_Set E c p ser)
      end
  end.

Definition warmed (E : Env) (c : gcache.Cache) (mp : list string) : gcache.Cache :=
  fold_left (warm_one E) mp c.

Definition ttlWarning : event :=
  EvLog "warn" "since expiration enabled for cache all pre-cached modules also will be removed from cache after TTL".

(** Whether a walk of the tree meets an entry whose [lstat] fails, and the
    entries of the tree that are not directories and are named [*.wasm], in
    walk order; the content of a directory that cannot be read is not
    visited. *)
Fixpoint visits_broken (n : filepath.fsnode) : bool :=
  match n with
  | filepath.FsFile _ => false
  | filepath.FsDir _ (Some _) _ => false
  | filepath.FsDir _ None es => entries_broken es
  end
with entries_broken (es : filepath.fsentries) : bool :=
  match es with
  | filepath.FsNil => false
  | filepath.FsEntry n rest => visits_broken n || entries_broken rest
  | filepath.FsBroken _ _ _ => true
  end.

Fixpoint wasm_files (path : string) (n : filepath.fsnode) : list string :=
  match n with
  | filepath.FsFile name =>
      if strings.HasSuffix name ".wasm" then [path] else []
  | filepath.FsDir _ (Some _) _ => []
  | filepath.FsDir _ None es => wasm_entries path es
  end
with wasm_entries (path : string) (es : filepath.fsentries) : list string :=
  match es with
  | filepath.FsNil => []
  | filepath.FsEntry n rest =>
      (wasm_files (filepath.Join path (filepath.Name (filepath.info n))) n
       ++ wasm_entries path rest)%list
  | filepath.FsBroken _ _ rest => wasm_entries path rest
  end.




(** * Properties *)

(** ** The model's own plumbing *)

Scheme fsnode_mut := Induction for filepath.fsnode Sort Prop
  with fsentries_mut := Induction for filepath.fsentries Sort Prop.

Lemma fresh_loc_bound (h : gmap loc taskHandle.t) (l : loc) (v : taskHandle.t) :
  h !! l = Some v -> (l < fresh_loc h)%nat.
Proof.
  unfold fresh_loc.
  cut (forall l v, h !! l = Some v ->
         (l <= map_fold (fun l _ acc => Nat.max l acc) 0%nat h)%nat).
  { intros Hle Hl. specialize (Hle _ _ Hl). lia. }
  clear l v.
  apply (map_fold_weak_ind
           (fun r (m : gmap loc taskHandle.t) =>
              forall l v, m !! l = Some v -> (l <= r)%nat)).
  - intros l v Hl. rewrite lookup_empty in Hl. discriminate.
  - intros i x m r _ IH l v Hl.
    destruct (decide (l = i)) as [->|Hne].
    + lia.
    + rewrite lookup_insert_ne in Hl by congruence.
      specialize (IH _ _ Hl). lia.
Qed.

(** A handle allocated by [new_handle] never reuses a cell. *)
Lemma fresh_loc_fresh (h : gmap loc taskHandle.t) : h !! fresh_loc h = None.
Proof.
  destruct (h !! fresh_loc h) as [v|] eqn:Hl; [|reflexivity].
  apply fresh_loc_bound in Hl. lia.
Qed.

Lemma bind_Ret {A B : Type} (m : M A) (k : A -> M B) d a d1 :
  m d = Ret a d1 -> bind m k d = k a d1.
Proof. intros H. unfold bind. now rewrite H. Qed.

Lemma bind_Panic {A B : Type} (m : M A) (k : A -> M B) d msg d1 :
  m d = Panic msg d1 -> bind m k d = Panic msg d1.
Proof. intros H. unfold bind. now rewrite H. Qed.

Lemma tasks_Get_eq (id : string) d : tasks_Get id d = Ret (tasks d !! id) d.
Proof. reflexivity. Qed.

Lemma deref_Some (h : loc) (v : taskHandle.t) d :
  heap d !! h = Some v -> deref h d = Ret v d.
Proof. intros H. unfold deref. now rewrite H. Qed.

Arguments time.Round : simpl never.
Arguments fresh_loc : simpl never.
Arguments filepath.Join : simpl never.

Ltac run :=
  repeat progress
    (cbv beta delta [bind ret gets modify emit panic tasks_Get tasks_Set
                       tasks_Delete stop make_chan new_handle deref];
     cbn).

(** ** The embedding on concrete inputs *)

Example HasSuffix_wasm :
  strings.HasSuffix "sum.wasm" ".wasm" = true
  /\ strings.HasSuffix ".wasm" ".wasm" = true
  /\ strings.HasSuffix "wasm" ".wasm" = false
  /\ strings.HasSuffix "sum.wasm.bak" ".wasm" = false.
Proof. repeat split. Qed.

Example ttl_as_duration :
  time.mul time.Second 600 = 600000000000
  /\ time.mul time.Second (2 ^ 62) = 0.
Proof. split; reflexivity. Qed.

Example discover_modules :
  discover (Examples.env Examples.defaultConfig false) "/modules"
  = Ret None ["/modules/a.wasm"; "/modules/b.wasm"; "/modules/sub/c.wasm"].
Proof. reflexivity. Qed.

Example discover_missing_directory :
  discover (Examples.env Examples.defaultConfig false) "/nowhere"
  = Panic nil_deref [].
Proof. reflexivity. Qed.

Example walk_over_unreadable_entry :
  filepath.Walk preCacheVisitor
    (inr (filepath.FsDir "m" None
            (filepath.FsEntry (filepath.FsFile "a.wasm")
               (filepath.FsBroken "b.wasm" Examples.no_such_file
                  (filepath.FsEntry (filepath.FsFile "c.wasm") filepath.FsNil)))))
    "/m" []
  = Panic nil_deref ["/m/a.wasm"].
Proof. reflexivity. Qed.

Example walk_over_unreadable_directory :
  filepath.Walk preCacheVisitor
    (inr (filepath.FsDir "m" (Some (LibErr "permission denied")) filepath.FsNil))
    "/m" []
  = Ret None [].
Proof. reflexivity. Qed.

Example SetConfig_defaults :
  exists d,
    SetConfig (Examples.env Examples.defaultConfig false) Examples.cfgBytes NewPlugin
    = Ret None d
    /\ modulesCache d = Some (builtCache (Config.Cache Examples.defaultConfig))
    /\ trace d = [].
Proof. eexists. repeat split. Qed.

Example SetConfig_empty_plugin_config :
  SetConfig (Examples.env Examples.defaultConfig false) (base.mkConfig [] None)
    NewPlugin
  = Ret (Some (Errorf "cache size must be > 0, but specified %v" [ArgInt 0]))
      NewPlugin.
Proof. reflexivity. Qed.

(** ** Lookups of unknown tasks *)

Lemma unknown_task_not_found_aux d taskID force :
  tasks d !! taskID = None ->
  DestroyTask taskID force d = Ret (Some drivers.ErrTaskNotFound) d.
Proof.
  intros Hnone. unfold DestroyTask.
  erewrite bind_Ret by apply tasks_Get_eq. now rewrite Hnone.
Qed.

(** C3: for a task id that is not in the task store, [InspectTask],
    [WaitTask], [StopTask], [DestroyTask], [TaskStats] and [SignalTask] each
    return [drivers.ErrTaskNotFound]; none of them panics and each leaves the
    plugin state, the task store included, as it was. *)
Theorem unknown_task_not_found
  (d : WasmtimeDriverPlugin) (taskID signal : string)
  (timeout interval : time.Duration) (force : bool) :
  tasks d !! taskID = None ->
  InspectTask taskID d = Ret (None, Some drivers.ErrTaskNotFound) d
  /\ WaitTask taskID d = Ret (None, Some drivers.ErrTaskNotFound) d
  /\ StopTask taskID timeout signal d = Ret (Some drivers.ErrTaskNotFound) d
  /\ DestroyTask taskID force d = Ret (Some drivers.ErrTaskNotFound) d
  /\ TaskStats taskID interval d = Ret (None, Some drivers.ErrTaskNotFound) d
  /\ SignalTask taskID signal d = Ret (Some drivers.ErrTaskNotFound) d.
Proof.
  intros Hnone.
  unfold InspectTask, WaitTask, StopTask, DestroyTask, TaskStats, SignalTask.
  repeat split;
    (erewrite bind_Ret by apply tasks_Get_eq); rewrite Hnone; reflexivity.
Qed.

Lemma unknown_task_not_found_witness :
  InspectTask "ghost" NewPlugin
  = Ret (None, Some drivers.ErrTaskNotFound) NewPlugin
  /\ DestroyTask "ghost" true NewPlugin
     = Ret (Some drivers.ErrTaskNotFound) NewPlugin.
Proof.
  destruct (unknown_task_not_found NewPlugin "ghost" "SIGTERM" 5 1 true)
    as (HI & _ & _ & HD & _ & _).
  - reflexivity.
  - split; assumption.
Defined.

(** ** Destroying a task *)

Lemma DestroyTask_rejects d taskID h v :
  tasks d !! taskID = Some h -> heap d !! h = Some v -> IsRunning v = true ->
  DestroyTask taskID false d
  = Ret (Some (ErrorsNew "cannot destroy running task")) d.
Proof.
  intros Ht Hh Hrun. unfold DestroyTask.
  erewrite bind_Ret by apply tasks_Get_eq. rewrite Ht.
  erewrite bind_Ret by (apply deref_Some; eassumption).
  now rewrite Hrun.
Qed.

Lemma DestroyTask_forced d taskID h v :
  tasks d !! taskID = Some h -> heap d !! h = Some v -> IsRunning v = true ->
  DestroyTask taskID true d
  = Ret None
      (mkPlugin (config d) (nomadConfig d) (delete taskID (tasks d))
         (modulesCache d) (<[h := stopped v]> (heap d)) (chans d)
         (trace d ++ [EvStop h; EvTasksDelete taskID])).
Proof.
  intros Ht Hh Hrun. unfold DestroyTask.
  erewrite bind_Ret by apply tasks_Get_eq. rewrite Ht.
  erewrite bind_Ret by (apply deref_Some; eassumption).
  rewrite Hrun. cbn [andb negb].
  erewrite bind_Ret by (apply deref_Some; eassumption).
  rewrite Hrun. cbn [andb].
  run. rewrite Hh. cbn.
  now rewrite <- app_assoc.
Qed.

Lemma DestroyTask_not_running d taskID force h v :
  tasks d !! taskID = Some h -> heap d !! h = Some v -> IsRunning v = false ->
  DestroyTask taskID force d
  = Ret None
      (mkPlugin (config d) (nomadConfig d) (delete taskID (tasks d))
         (modulesCache d) (heap d) (chans d)
         (trace d ++ [EvTasksDelete taskID])).
Proof.
  intros Ht Hh Hrun. unfold DestroyTask.
  erewrite bind_Ret by apply tasks_Get_eq. rewrite Ht.
  erewrite bind_Ret by (apply deref_Some; eassumption).
  rewrite Hrun. cbn [andb].
  erewrite bind_Ret by (apply deref_Some; eassumption).
  rewrite Hrun. cbn [andb].
  reflexivity.
Qed.

(** C1: [DestroyTask] looks the id up first and answers
    [drivers.ErrTaskNotFound] when it is absent.  For a registered task: if
    it is running and [force] is false the call is rejected with an error and
    the plugin state (so the registration and the handle) is unchanged; if it
    is running and [force] is true, [stop()] is called on the handle and then
    the id is deleted from the store; if it is not running the id is deleted
    without a [stop()].  In every case that is not rejected the id is no
    longer in the store afterwards and every other id keeps its handle. *)
Theorem DestroyTask_lifecycle
  (d : WasmtimeDriverPlugin) (taskID : string) (force : bool) :
  (tasks d !! taskID = None ->
   DestroyTask taskID force d = Ret (Some drivers.ErrTaskNotFound) d)
  /\ (forall h v,
        tasks d !! taskID = Some h -> heap d !! h = Some v ->
        (IsRunning v = true -> force = false ->
         DestroyTask taskID force d
         = Ret (Some (ErrorsNew "cannot destroy running task")) d)
        /\ (IsRunning v = true -> force = true ->
            exists d',
              DestroyTask taskID force d = Ret None d'
              /\ trace d' = (trace d ++ [EvStop h; EvTasksDelete taskID])%list
              /\ heap d' !! h = Some (stopped v)
              /\ tasks d' = delete taskID (tasks d)
              /\ tasks d' !! taskID = None)
        /\ (IsRunning v = false ->
            exists d',
              DestroyTask taskID force d = Ret None d'
              /\ trace d' = (trace d ++ [EvTasksDelete taskID])%list
              /\ heap d' = heap d
              /\ tasks d' = delete taskID (tasks d)
              /\ tasks d' !! taskID = None)).
Proof.
  split.
  - intros Hnone.
    apply (unknown_task_not_found_aux d taskID force Hnone).
  - intros h v Ht Hh. repeat split.
    + intros Hrun ->. eapply DestroyTask_rejects; eassumption.
    + intros Hrun ->. eexists. split.
      * eapply DestroyTask_forced; eassumption.
      * cbn. repeat split; try reflexivity.
        -- apply lookup_insert_eq.
        -- apply lookup_delete_eq.
    + intros Hrun. eexists. split.
      * eapply DestroyTask_not_running; eassumption.
      * cbn. repeat split; try reflexivity. apply lookup_delete_eq.
Qed.

Lemma DestroyTask_lifecycle_witness :
  DestroyTask "t1" false Examples.started
  = Ret (Some (ErrorsNew "cannot destroy running task")) Examples.started
  /\ (exists d',
        DestroyTask "t1" true Examples.started = Ret None d'
        /\ trace d'
           = (trace Examples.started ++ [EvStop 1%nat; EvTasksDelete "t1"])%list
        /\ tasks d' !! "t1" = None)
  /\ DestroyTask "t2" true Examples.started
     = Ret (Some drivers.ErrTaskNotFound) Examples.started.
Proof.
  pose (v := startedHandle (Examples.env Examples.defaultConfig false)
               Examples.task1 Examples.taskConf NewPlugin).
  assert (Ht : tasks Examples.started !! "t1" = Some 1%nat) by reflexivity.
  assert (Hh : heap Examples.started !! 1%nat = Some v) by reflexivity.
  split; [|split].
  - destruct (DestroyTask_lifecycle Examples.started "t1" false) as [_ H].
    destruct (H 1%nat v Ht Hh) as (Hrej & _ & _).
    apply Hrej; reflexivity.
  - destruct (DestroyTask_lifecycle Examples.started "t1" true) as [_ H].
    destruct (H 1%nat v Ht Hh) as (_ & Hforce & _).
    destruct (Hforce eq_refl eq_refl) as (d' & Hrun & Htr & _ & _ & Hgone).
    exists d'. repeat split; assumption.
  - destruct (DestroyTask_lifecycle Examples.started "t2" true) as [H _].
    apply H. reflexivity.
Defined.

(** ** Starting a task *)

Lemma StartTask_duplicate E cfg d l :
  tasks d !! drivers.ID cfg = Some l ->
  StartTask E cfg d
  = Ret (None, None,
         Some (Errorf "task with ID %q already started" [ArgStr (drivers.ID cfg)]))
      d.
Proof.
  intros Ht. unfold StartTask.
  erewrite bind_Ret by apply tasks_Get_eq. now rewrite Ht.
Qed.

Lemma StartTask_decode_fails E cfg d err :
  tasks d !! drivers.ID cfg = None ->
  DecodeDriverConfig E cfg = inl err ->
  StartTask E cfg d
  = Ret (None, None,
         Some (Errorf "failed to decode driver config: %v" [ArgErr err]))
      d.
Proof.
  intros Ht Hdec. unfold StartTask.
  erewrite bind_Ret by apply tasks_Get_eq. now rewrite Ht, Hdec.
Qed.

Lemma StartTask_encode_fails E cfg d driverConfig err :
  tasks d !! drivers.ID cfg = None ->
  DecodeDriverConfig E cfg = inr driverConfig ->
  MsgPackEncode E (driverStateOf E cfg) = inl err ->
  StartTask E cfg d
  = Ret (None, None,
         Some (Errorf "failed to set driver state: %v" [ArgErr err]))
      (mkPlugin (config d) (nomadConfig d) (tasks d) (modulesCache d)
         (<[fresh_loc (heap d) := startedHandle E cfg driverConfig d]> (heap d))
         (S (chans d))
         (trace d ++ [EvLog "info" "starting task"])).
Proof.
  intros Ht Hdec Henc. unfold StartTask.
  erewrite bind_Ret by apply tasks_Get_eq. rewrite Ht, Hdec.
  unfold driverStateOf in Henc. run. now rewrite Henc.
Qed.

Lemma StartTask_started E cfg d driverConfig encoded :
  tasks d !! drivers.ID cfg = None ->
  DecodeDriverConfig E cfg = inr driverConfig ->
  MsgPackEncode E (driverStateOf E cfg) = inr encoded ->
  StartTask E cfg d
  = Ret (Some (drivers.mkTaskHandle taskHandleVersion (Some cfg) "" encoded),
         None, None)
      (mkPlugin (config d) (nomadConfig d)
         (<[drivers.ID cfg := fresh_loc (heap d)]> (tasks d))
         (modulesCache d)
         (<[fresh_loc (heap d) := startedHandle E cfg driverConfig d]> (heap d))
         (S (chans d))
         (trace d ++ [EvLog "info" "starting task";
                      EvTasksSet (drivers.ID cfg) (fresh_loc (heap d));
                      EvGo (go_run (fresh_loc (heap d)))])).
Proof.
  intros Ht Hdec Henc. unfold StartTask.
  erewrite bind_Ret by apply tasks_Get_eq. rewrite Ht, Hdec.
  unfold driverStateOf in Henc. run. rewrite Henc. run. rewrite Ht. cbn.
  now rewrite <- !app_assoc.
Qed.

(** C2, as stated, fails on an id that is not registered when the driver
    configuration of the task does not decode: [StartTask] returns the decode
    error and registers nothing. *)
Lemma StartTask_fresh_id_not_registered :
  tasks NewPlugin !! drivers.ID Examples.task1 = None
  /\ StartTask Examples.env_bad_task Examples.task1 NewPlugin
     = Ret (None, None,
            Some (Errorf "failed to decode driver config: %v"
                    [ArgErr Examples.bad_msgpack]))
         NewPlugin
  /\ tasks (final_state
              (StartTask Examples.env_bad_task Examples.task1 NewPlugin))
       !! drivers.ID Examples.task1 = None.
Proof. repeat split. Qed.

(** C2 (amended): when the id of the task configuration is already in the
    task store, [StartTask] fails with the "already started" error naming the
    id and the plugin state is unchanged: no handle is created and the id
    keeps its one task.  When the id is not in the store and the driver
    configuration decodes and the driver state encodes, [StartTask] succeeds
    and the store gains exactly one entry, for that id, bound to the new
    handle; every other id keeps its handle.  When the id is not in the store
    and decoding or encoding fails, [StartTask] returns that error and the
    store is unchanged. *)
Theorem StartTask_registration
  (E : Env) (cfg : drivers.TaskConfig) (d : WasmtimeDriverPlugin) :
  (forall l,
     tasks d !! drivers.ID cfg = Some l ->
     StartTask E cfg d
     = Ret (None, None,
            Some (Errorf "task with ID %q already started"
                    [ArgStr (drivers.ID cfg)]))
         d)
  /\ (tasks d !! drivers.ID cfg = None ->
      (forall driverConfig encoded,
         DecodeDriverConfig E cfg = inr driverConfig ->
         MsgPackEncode E (driverStateOf E cfg) = inr encoded ->
         exists th d',
           StartTask E cfg d = Ret (Some th, None, None) d'
           /\ tasks d' = <[drivers.ID cfg := fresh_loc (heap d)]> (tasks d)
           /\ heap d' !! fresh_loc (heap d)
              = Some (startedHandle E cfg driverConfig d)
           /\ heap d !! fresh_loc (heap d) = None
           /\ size (tasks d') = S (size (tasks d))
           /\ (forall id, id <> drivers.ID cfg -> tasks d' !! id = tasks d !! id))
      /\ (forall err,
            DecodeDriverConfig E cfg = inl err ->
            StartTask E cfg d
            = Ret (None, None,
                   Some (Errorf "failed to decode driver config: %v"
                           [ArgErr err]))
                d)
      /\ (forall driverConfig err,
            DecodeDriverConfig E cfg = inr driverConfig ->
            MsgPackEncode E (driverStateOf E cfg) = inl err ->
            exists d',
              StartTask E cfg d
              = Ret (None, None,
                     Some (Errorf "failed to set driver state: %v"
                             [ArgErr err]))
                  d'
              /\ tasks d' = tasks d)).
Proof.
  split; [intros l Hl; eapply StartTask_duplicate; eassumption|].
  intros Hnone. split; [|split].
  - intros driverConfig encoded Hdec Henc.
    do 2 eexists. split.
    + eapply StartTask_started; eassumption.
    + cbn. repeat split.
      * apply lookup_insert_eq.
      * apply fresh_loc_fresh.
      * now apply map_size_insert_None.
      * intros id Hid. now apply lookup_insert_ne.
  - intros err Hdec. now apply StartTask_decode_fails.
  - intros driverConfig err Hdec Henc. eexists. split.
    + eapply StartTask_encode_fails; eassumption.
    + reflexivity.
Qed.

Lemma StartTask_registration_witness :
  (exists th d',
     StartTask (Examples.env Examples.defaultConfig false) Examples.task1
       NewPlugin = Ret (Some th, None, None) d'
     /\ tasks d' = <[ "t1" := 1%nat ]> ∅
     /\ size (tasks d') = 1%nat)
  /\ StartTask (Examples.env Examples.defaultConfig false) Examples.task1
       Examples.started
     = Ret (None, None,
            Some (Errorf "task with ID %q already started" [ArgStr "t1"]))
         Examples.started.
Proof.
  split.
  - destruct (StartTask_registration
                (Examples.env Examples.defaultConfig false) Examples.task1
                NewPlugin) as [_ H].
    destruct (H eq_refl) as (Hok & _ & _).
    destruct (Hok Examples.taskConf [x00] eq_refl eq_refl)
      as (th & d' & Hrun & Htasks & _ & _ & Hsize & _).
    exists th, d'. repeat split; assumption.
  - destruct (StartTask_registration
                (Examples.env Examples.defaultConfig false) Examples.task1
                Examples.started) as [H _].
    apply (H 1%nat). reflexivity.
Defined.

(** C8, as stated, fails: right after [StartTask] has returned, when the
    goroutine [h.run()] has only been spawned, the task is already registered
    with state [running] and [InspectTask] reports it as such. *)
Lemma StartTask_running_before_engine_call :
  exists th d' v,
    StartTask (Examples.env Examples.defaultConfig false) Examples.task1
      NewPlugin = Ret (Some th, None, None) d'
    /\ tasks d' !! "t1" = Some 1%nat
    /\ heap d' !! 1%nat = Some v
    /\ taskHandle.procState v = drivers.TaskStateRunning
    /\ trace d' = [EvLog "info" "starting task"; EvTasksSet "t1" 1%nat;
                   EvGo (go_run 1%nat)]
    /\ InspectTask "t1" d'
       = Ret (Some (drivers.mkTaskStatus "t1" "sum-numbers" "running"
                      1700000000123000000 None), None) d'.
Proof.
  exists (drivers.mkTaskHandle taskHandleVersion (Some Examples.task1) "" [x00]),
    Examples.started,
    (startedHandle (Examples.env Examples.defaultConfig false) Examples.task1
       Examples.taskConf NewPlugin).
  repeat split; reflexivity.
Qed.

(** Whenever [StartTask] succeeds, the handle it has built has state
    [drivers.TaskStateRunning] from its creation on; it is put into the task
    store in that state and only afterwards is the goroutine [h.run()]
    spawned, so [InspectTask] reports the task as running as soon as
    [StartTask] has returned. *)
Lemma StartTask_creates_running
  (E : Env) (cfg : drivers.TaskConfig) (d : WasmtimeDriverPlugin)
  (driverConfig : TaskConfig.t) (encoded : list byte) :
  tasks d !! drivers.ID cfg = None ->
  DecodeDriverConfig E cfg = inr driverConfig ->
  MsgPackEncode E (driverStateOf E cfg) = inr encoded ->
  exists th d' l v,
    StartTask E cfg d = Ret (Some th, None, None) d'
    /\ tasks d' !! drivers.ID cfg = Some l
    /\ heap d' !! l = Some v
    /\ taskHandle.procState v = drivers.TaskStateRunning
    /\ IsRunning v = true
    /\ trace d' = (trace d ++ [EvLog "info" "starting task";
                               EvTasksSet (drivers.ID cfg) l;
                               EvGo (go_run l)])%list
    /\ InspectTask (drivers.ID cfg) d' = Ret (Some (TaskStatus v), None) d'
    /\ drivers.status_State (TaskStatus v) = drivers.TaskStateRunning.
Proof.
  intros Hnone Hdec Henc.
  eexists _, _, (fresh_loc (heap d)), (startedHandle E cfg driverConfig d).
  split; [eapply StartTask_started; eassumption|].
  cbn. repeat split.
  - apply lookup_insert_eq.
  - apply lookup_insert_eq.
  - unfold InspectTask. run. rewrite lookup_insert_eq. cbn.
    now rewrite lookup_insert_eq.
Qed.

(** ** Configuring the cache *)

Section ConfigureCache.
Variable E : Env.

Lemma selectType_valid t cb :
  validType t = true -> selectType t cb = Some (gcache.EvictType t cb).
Proof.
  unfold validType, selectType, gcache.LFU, gcache.ARC, gcache.LRU,
    gcache.Simple.
  intros H.
  destruct (String.eqb t gcache.TYPE_LFU) eqn:H1;
    [apply String.eqb_eq in H1; now subst|].
  destruct (String.eqb t gcache.TYPE_ARC) eqn:H2;
    [apply String.eqb_eq in H2; now subst|].
  destruct (String.eqb t gcache.TYPE_LRU) eqn:H3;
    [apply String.eqb_eq in H3; now subst|].
  destruct (String.eqb t gcache.TYPE_SIMPLE) eqn:H4;
    [apply String.eqb_eq in H4; now subst|].
  discriminate.
Qed.

Lemma selectType_invalid t cb : validType t = false -> selectType t cb = None.
Proof.
  unfold validType, selectType. intros H.
  destruct (String.eqb t gcache.TYPE_LFU); [discriminate|].
  destruct (String.eqb t gcache.TYPE_ARC); [discriminate|].
  destruct (String.eqb t gcache.TYPE_LRU); [discriminate|].
  destruct (String.eqb t gcache.TYPE_SIMPLE); [discriminate|].
  reflexivity.
Qed.

Lemma Build_valid t size exp :
  validType t = true -> 0 < size ->
  gcache.Build (gcache.mkBuilder t size exp)
  = inr (gcache.mkCache (gcache.mkBuilder t size exp) []).
Proof.
  intros Hv Hs. unfold gcache.Build. cbn [gcache.size gcache.tp].
  destruct (size <=? 0) eqn:Hle; [apply Z.leb_le in Hle; lia|].
  cbn [andb]. unfold validType in Hv.
  destruct (String.eqb t gcache.TYPE_LFU), (String.eqb t gcache.TYPE_ARC),
    (String.eqb t gcache.TYPE_LRU), (String.eqb t gcache.TYPE_SIMPLE);
    try discriminate; reflexivity.
Qed.

(** The builder reaching [Build] is the one of [builtCache]. *)
Lemma builder_of_conf (cacheConf : CacheConfig.t) :
  gcache.EvictType (CacheConfig.Type_ cacheConf)
    (if ExpirationConfig.Enabled (CacheConfig.Expiration cacheConf)
     then gcache.Expiration
            (time.mul time.Second
               (ExpirationConfig.EntryTTL (CacheConfig.Expiration cacheConf)))
            (gcache.New (CacheConfig.Size cacheConf))
     else gcache.New (CacheConfig.Size cacheConf))
  = gcache.built (builtCache cacheConf).
Proof.
  unfold builtCache.
  now destruct (ExpirationConfig.Enabled (CacheConfig.Expiration cacheConf)).
Qed.

Lemma configureCache_invalid_type d :
  validType (CacheConfig.Type_ (Config.Cache (config d))) = false ->
  configureCache E d
  = Ret (Some (Errorf "unexpected cache type specified, expected types: [lfu, arc, lru, simple], but specififed %s"
                 [ArgStr (CacheConfig.Type_ (Config.Cache (config d)))]))
      d.
Proof.
  intros H. unfold configureCache. run.
  now rewrite selectType_invalid.
Qed.

(** With a valid type and a positive size the cache is built and stored,
    and what remains of [configureCache] is the warm-up. *)
Lemma configureCache_built d :
  let cacheConf := Config.Cache (config d) in
  let d0 := set_modulesCache (Some (builtCache cacheConf)) d in
  validType (CacheConfig.Type_ cacheConf) = true ->
  0 < CacheConfig.Size cacheConf ->
  configureCache E d
  = if PreCacheConfig.Enabled (CacheConfig.PreCache cacheConf) then
      match discover E (PreCacheConfig.ModulesDir (CacheConfig.PreCache cacheConf)) with
      | Panic msg _ => Panic msg d0
      | Ret (Some err) _ =>
          Ret (Some (Errorf "unable to get WASM modules for pre-cache from %s directory: %v"
                       [ArgStr (PreCacheConfig.ModulesDir (CacheConfig.PreCache cacheConf));
                        ArgErr err])) d0
      | Ret None modulesPath =>
          if Z.of_nat (length modulesPath) >? CacheConfig.Size cacheConf then
            Ret (Some (Errorf "cache size (%v) must not be less then number of pre-cached modules (%v)"
                         [ArgInt (CacheConfig.Size cacheConf);
                          ArgInt (Z.of_nat (length modulesPath))])) d0
          else
            match preCacheLoop E modulesPath d0 with
            | Panic msg d1 => Panic msg d1
            | Ret (Some e) d1 => Ret (Some e) d1
            | Ret None d1 =>
                if ExpirationConfig.Enabled (CacheConfig.Expiration cacheConf)
                then Ret None
                       (set_trace
                          (trace d1 ++ [EvLog "warn" "since expiration enabled for cache all pre-cached modules also will be removed from cache after TTL"])
                          d1)
                else Ret None d1
            end
      end
    else Ret None d0.
Proof.
  intros cacheConf d0 Hv Hs. unfold configureCache. run.
  fold cacheConf.
  rewrite selectType_valid by assumption.
  rewrite builder_of_conf. unfold builtCache at 1. cbn [gcache.built].
  rewrite Build_valid by assumption.
  fold (builtCache cacheConf). fold d0.
  destruct (PreCacheConfig.Enabled (CacheConfig.PreCache cacheConf));
    [|reflexivity].
  unfold discover.
  destruct (filepath.Walk _ _ _ _) as [[err|] mp|msg mp]; try reflexivity.
  destruct (_ >? _); [reflexivity|].
  destruct (preCacheLoop E mp d0) as [[e|] d1|msg d1]; try reflexivity.
  now destruct (ExpirationConfig.Enabled (CacheConfig.Expiration cacheConf)).
Qed.
End ConfigureCache.

(** ** The warm-up loop *)

Section WarmUp.
Variable E : Env.

Lemma preCacheLoop_cons p rest d :
  preCacheLoop E (p :: rest) d
  = match preCacheLoop E [p] d with
    | Ret None d1 => preCacheLoop E rest d1
    | o => o
    end.
Proof.
  cbn [preCacheLoop]. run.
  destruct (NewModuleFromFile E p) as [err|m]; [reflexivity|]. run.
  destruct (Serialize E m) as [err|ser]; [reflexivity|]. run.
  unfold modulesCache_Set. cbn.
  destruct (modulesCache d) as [c|]; [|reflexivity].
  destruct (cache_Set E c p ser) as [[e|] c1]; reflexivity.
Qed.

Lemma preCacheLoop_app pre rest d :
  preCacheLoop E (pre ++ rest) d
  = match preCacheLoop E pre d with
    | Ret None d1 => preCacheLoop E rest d1
    | o => o
    end.
Proof.
  revert d. induction pre as [|p pre IH]; intros d; [reflexivity|].
  rewrite <- app_comm_cons, (preCacheLoop_cons p (pre ++ rest)),
    (preCacheLoop_cons p pre).
  destruct (preCacheLoop E [p] d) as [[e|] d1|msg d1]; try reflexivity.
  apply IH.
Qed.

(** The loop touches the cache and the trace only. *)
Lemma preCacheLoop_frame l d :
  let d' := final_state (preCacheLoop E l d) in
  config d' = config d /\ nomadConfig d' = nomadConfig d
  /\ tasks d' = tasks d /\ heap d' = heap d /\ chans d' = chans d.
Proof.
  revert d. induction l as [|p l IH]; intros d; [cbn; auto|].
  cbn zeta. rewrite preCacheLoop_cons.
  assert (Hstep : let d1 := final_state (preCacheLoop E [p] d) in
                  config d1 = config d /\ nomadConfig d1 = nomadConfig d
                  /\ tasks d1 = tasks d /\ heap d1 = heap d
                  /\ chans d1 = chans d).
  { cbn [preCacheLoop]. run.
    destruct (NewModuleFromFile E p) as [err|m]; [cbn; auto|]. run.
    destruct (Serialize E m) as [err|ser]; [cbn; auto|]. run.
    unfold modulesCache_Set. cbn.
    destruct (modulesCache d) as [c|]; [|cbn; auto].
    destruct (cache_Set E c p ser) as [[e|] c1]; cbn; auto. }
  destruct (preCacheLoop E [p] d) as [[e|] d1|msg d1]; try exact Hstep.
  cbn in Hstep. specialize (IH d1). cbn zeta in IH.
  destruct Hstep as (<- & <- & <- & <- & <-). exact IH.
Qed.

(** The loop does not read the configuration. *)
Lemma preCacheLoop_set_config c l d :
  preCacheLoop E l (set_config c d)
  = map_state (set_config c) (preCacheLoop E l d).
Proof.
  revert d. induction l as [|p l IH]; intros d; [reflexivity|].
  rewrite !(preCacheLoop_cons p l).
  assert (Hstep : preCacheLoop E [p] (set_config c d)
                  = map_state (set_config c) (preCacheLoop E [p] d)).
  { cbn [preCacheLoop]. run.
    destruct (NewModuleFromFile E p) as [err|m]; [reflexivity|]. run.
    destruct (Serialize E m) as [err|ser]; [reflexivity|]. run.
    unfold modulesCache_Set. cbn.
    destruct (modulesCache d) as [c0|]; [|reflexivity].
    destruct (cache_Set E c0 p ser) as [[e|] c1]; reflexivity. }
  rewrite Hstep.
  destruct (preCacheLoop E [p] d) as [[e|] d1|msg d1]; try reflexivity.
  cbn. apply IH.
Qed.

(** A module that fails stops the loop with an error naming it, after
    events about that module only. *)
Lemma preCacheLoop_failing p d :
  module_fails E (modulesCache d) p = true ->
  exists format rest evs d2,
    preCacheLoop E [p] d = Ret (Some (Errorf format (ArgStr p :: rest))) d2
    /\ In format warmupFormats
    /\ trace d2 = (trace d ++ evs)%list
    /\ Forall (fun ev => event_path ev = Some p) evs.
Proof.
  unfold module_fails, warmupFormats. intros Hf. cbn [preCacheLoop]. run.
  destruct (NewModuleFromFile E p) as [err|m].
  { do 4 eexists. split; [reflexivity|]. split; [now left|].
    split; [reflexivity|]. repeat constructor. }
  run. destruct (Serialize E m) as [err|ser].
  { do 4 eexists. split; [reflexivity|]. split; [right; now left|].
    cbn. rewrite <- app_assoc.
    split; [reflexivity|]. repeat constructor. }
  run. unfold modulesCache_Set. cbn.
  destruct (modulesCache d) as [c|]; [|discriminate].
  destruct (cache_Set E c p ser) as [[e|] c1]; [|discriminate].
  cbn. do 4 eexists. split; [reflexivity|]. split; [right; right; now left|].
  cbn. rewrite <- !app_assoc.
  split; [reflexivity|]. repeat constructor.
Qed.

(** Every error the loop answers is one of its three messages. *)
Lemma preCacheLoop_errors l d e d' :
  preCacheLoop E l d = Ret (Some e) d' ->
  exists format args, e = Errorf format args /\ In format warmupFormats.
Proof.
  revert d. induction l as [|p l IH]; intros d; [discriminate|].
  rewrite preCacheLoop_cons.
  destruct (preCacheLoop E [p] d) as [[e1|] d1|msg d1] eqn:Hstep;
    [|apply IH|discriminate].
  intros Heq. injection Heq as -> ->. revert Hstep.
  cbn [preCacheLoop]. run. unfold warmupFormats.
  destruct (NewModuleFromFile E p) as [err|m].
  { intros Heq. injection Heq as <- _. do 2 eexists. split; [reflexivity|].
    now left. }
  run. destruct (Serialize E m) as [err|ser].
  { intros Heq. injection Heq as <- _. do 2 eexists. split; [reflexivity|].
    right; now left. }
  run. unfold modulesCache_Set. cbn.
  destruct (modulesCache d) as [c|]; [|discriminate].
  destruct (cache_Set E c p ser) as [[e0|] c1]; cbn; [|discriminate].
  intros Heq. injection Heq as <- _. do 2 eexists. split; [reflexivity|].
  right; right; now left.
Qed.
End WarmUp.

(** ** [SetConfig] *)

Section SetConfigFacts.
Variable E : Env.
Local Arguments configureCache : simpl never.

Lemma SetConfig_decode_fails cfg d err :
  decodePluginConfig E cfg = inl err -> SetConfig E cfg d = Ret (Some err) d.
Proof. intros H. unfold SetConfig. now rewrite H. Qed.

Lemma SetConfig_bad_size cfg d config_ :
  decodePluginConfig E cfg = inr config_ ->
  CacheConfig.Size (Config.Cache config_) <= 0 ->
  SetConfig E cfg d
  = Ret (Some (Errorf "cache size must be > 0, but specified %v"
                 [ArgInt (CacheConfig.Size (Config.Cache config_))]))
      (set_config config_ d).
Proof.
  intros Hdec Hs. unfold SetConfig. rewrite Hdec. run.
  apply Z.leb_le in Hs. now rewrite Hs.
Qed.

Lemma SetConfig_bad_ttl cfg d config_ :
  decodePluginConfig E cfg = inr config_ ->
  0 < CacheConfig.Size (Config.Cache config_) ->
  ExpirationConfig.Enabled (CacheConfig.Expiration (Config.Cache config_)) = true ->
  ExpirationConfig.EntryTTL (CacheConfig.Expiration (Config.Cache config_)) <= 0 ->
  SetConfig E cfg d
  = Ret (Some (Errorf "cache entry time-to-live must be > 0, but specified %v"
                 [ArgInt (ExpirationConfig.EntryTTL
                            (CacheConfig.Expiration (Config.Cache config_)))]))
      (set_config config_ d).
Proof.
  intros Hdec Hs Hen Httl. unfold SetConfig. rewrite Hdec. run.
  destruct (_ <=? 0) eqn:Hle; [apply Z.leb_le in Hle; lia|].
  rewrite Hen. apply Z.leb_le in Httl. now rewrite Httl.
Qed.

(** Past the two checks, [SetConfig] stores the agent configuration and
    answers what [configureCache] answers, or nil when the cache is off. *)
Lemma SetConfig_validated cfg d config_ :
  decodePluginConfig E cfg = inr config_ ->
  0 < CacheConfig.Size (Config.Cache config_) ->
  (ExpirationConfig.Enabled (CacheConfig.Expiration (Config.Cache config_)) = true ->
   0 < ExpirationConfig.EntryTTL (CacheConfig.Expiration (Config.Cache config_))) ->
  SetConfig E cfg d
  = if CacheConfig.Enabled (Config.Cache config_)
    then configureCache E (withAgent cfg (set_config config_ d))
    else Ret None (withAgent cfg (set_config config_ d)).
Proof.
  intros Hdec Hs Httl. unfold SetConfig. rewrite Hdec. run.
  destruct (_ <=? 0) eqn:Hle; [apply Z.leb_le in Hle; lia|].
  assert (Hchk : ExpirationConfig.Enabled (CacheConfig.Expiration (Config.Cache config_))
                 && (ExpirationConfig.EntryTTL (CacheConfig.Expiration (Config.Cache config_)) <=? 0)
                 = false).
  { destruct (ExpirationConfig.Enabled _); [|reflexivity].
    cbn. apply Z.leb_gt. now apply Httl. }
  rewrite Hchk. unfold withAgent.
  destruct (base.AgentConfig_ cfg) as [a|]; run;
    (destruct (CacheConfig.Enabled (Config.Cache config_)); [|reflexivity]);
    match goal with
    | |- context [configureCache E ?x] =>
        destruct (configureCache E x) as [[e|] d1|msg d1]; reflexivity
    end.
Qed.

Lemma configureCache_config d :
  config (final_state (configureCache E d)) = config d.
Proof.
  unfold configureCache. run.
  destruct (selectType _ _) as [cb|]; [|reflexivity].
  destruct (gcache.Build cb) as [msg|c]; [reflexivity|]. run.
  destruct (PreCacheConfig.Enabled _); [|reflexivity].
  destruct (filepath.Walk _ _ _ _) as [[err|] mp|msg mp]; try reflexivity.
  destruct (_ >? _); [reflexivity|].
  pose proof (preCacheLoop_frame E mp (set_modulesCache (Some c) d)) as Hf.
  cbn zeta in Hf. destruct Hf as (Hc & _).
  destruct (preCacheLoop E mp _) as [[e|] d1|msg d1]; cbn in Hc |- *;
    try exact Hc.
  destruct (ExpirationConfig.Enabled _); cbn; exact Hc.
Qed.

Lemma withAgent_config cfg d : config (withAgent cfg d) = config d.
Proof. unfold withAgent. now destruct (base.AgentConfig_ cfg). Qed.
End SetConfigFacts.

(** C9: [SetConfig] stores the decoded configuration before it validates
    it: whenever the plugin configuration decodes, the configuration stored
    in the plugin once [SetConfig] is over is the decoded one, whatever the
    call answers; in particular after every error answer (size, TTL, cache
    type, warm-up) the stored configuration is the rejected one and not the
    one held before. *)
Theorem SetConfig_stores_before_validation
  (E : Env) (cfg : base.Config) (d : WasmtimeDriverPlugin) (config_ : Config.t) :
  decodePluginConfig E cfg = inr config_ ->
  config (final_state (SetConfig E cfg d)) = config_
  /\ (forall e d', SetConfig E cfg d = Ret (Some e) d' -> config d' = config_).
Proof.
  intros Hdec.
  assert (H : config (final_state (SetConfig E cfg d)) = config_).
  { destruct (Z_le_gt_dec (CacheConfig.Size (Config.Cache config_)) 0) as [Hs|Hs].
    { now rewrite (SetConfig_bad_size E cfg d config_ Hdec Hs). }
    destruct (ExpirationConfig.Enabled (CacheConfig.Expiration (Config.Cache config_))) eqn:Hen.
    - destruct (Z_le_gt_dec (ExpirationConfig.EntryTTL (CacheConfig.Expiration (Config.Cache config_))) 0)
        as [Ht|Ht].
      { rewrite (SetConfig_bad_ttl E cfg d config_ Hdec); [reflexivity|lia|assumption|assumption]. }
      rewrite (SetConfig_validated E cfg d config_ Hdec);
        [|lia|rewrite Hen; intros _; lia].
      destruct (CacheConfig.Enabled _);
        [rewrite configureCache_config|cbn]; now rewrite withAgent_config.
    - rewrite (SetConfig_validated E cfg d config_ Hdec);
        [|lia|rewrite Hen; discriminate].
      destruct (CacheConfig.Enabled _);
        [rewrite configureCache_config|cbn]; now rewrite withAgent_config. }
  split; [exact H|].
  intros e d' Hrun. now rewrite Hrun in H.
Qed.

Lemma SetConfig_stores_before_validation_witness :
  SetConfig (Examples.env (Examples.cacheConf true 5 "fifo" false "" true 600) false)
    Examples.cfgBytes NewPlugin
  = Ret (Some (Errorf "unexpected cache type specified, expected types: [lfu, arc, lru, simple], but specififed %s"
                 [ArgStr "fifo"]))
      (set_config (Examples.cacheConf true 5 "fifo" false "" true 600) NewPlugin)
  /\ config NewPlugin = Config.zero
  /\ config (final_state
               (SetConfig (Examples.env (Examples.cacheConf true 5 "fifo" false "" true 600) false)
                  Examples.cfgBytes NewPlugin))
     = Examples.cacheConf true 5 "fifo" false "" true 600.
Proof.
  split; [reflexivity|]. split; [reflexivity|].
  apply (SetConfig_stores_before_validation
           (Examples.env (Examples.cacheConf true 5 "fifo" false "" true 600) false)
           Examples.cfgBytes NewPlugin
           (Examples.cacheConf true 5 "fifo" false "" true 600) eq_refl).
Defined.


(** ** Cache type, cache size and warm-up failures *)

(** C6, as stated, fails for [SetConfig]: with the cache enabled, the type
    [fifo] and the size 0, [SetConfig] answers the size error and never
    looks at the type. *)
Lemma SetConfig_invalid_type_behind_size_check :
  validType "fifo" = false
  /\ SetConfig (Examples.env (Examples.cacheConf true 0 "fifo" false "" true 600) false)
       Examples.cfgBytes NewPlugin
     = Ret (Some (Errorf "cache size must be > 0, but specified %v" [ArgInt 0]))
         (set_config (Examples.cacheConf true 0 "fifo" false "" true 600) NewPlugin).
Proof. split; reflexivity. Qed.

(** C6 (amended): for every configuration whose cache type is none of
    [lfu], [arc], [lru], [simple], [configureCache] fails with the
    "unexpected cache type" error naming the type given, and leaves the
    plugin as it was: no cache is built, so no other type stands in.
    [SetConfig] answers this error whenever the configuration decodes, passes
    the size and TTL checks and has the cache enabled with such a type. *)
Theorem invalid_cache_type_is_fatal (E : Env) (config_ : Config.t) :
  validType (CacheConfig.Type_ (Config.Cache config_)) = false ->
  let err :=
    Errorf "unexpected cache type specified, expected types: [lfu, arc, lru, simple], but specififed %s"
      [ArgStr (CacheConfig.Type_ (Config.Cache config_))] in
  (forall d, config d = config_ -> configureCache E d = Ret (Some err) d)
  /\ (forall cfg d,
        decodePluginConfig E cfg = inr config_ ->
        CacheConfig.Enabled (Config.Cache config_) = true ->
        0 < CacheConfig.Size (Config.Cache config_) ->
        (ExpirationConfig.Enabled (CacheConfig.Expiration (Config.Cache config_)) = true ->
         0 < ExpirationConfig.EntryTTL (CacheConfig.Expiration (Config.Cache config_))) ->
        SetConfig E cfg d = Ret (Some err) (withAgent cfg (set_config config_ d))
        /\ modulesCache (withAgent cfg (set_config config_ d)) = modulesCache d).
Proof.
  intros Hinv err. split.
  - intros d <-. now apply configureCache_invalid_type.
  - intros cfg d Hdec Hen Hs Httl. split.
    + rewrite (SetConfig_validated E cfg d config_ Hdec Hs Httl), Hen.
      rewrite configureCache_invalid_type; rewrite withAgent_config;
        [reflexivity|exact Hinv].
    + unfold withAgent. now destruct (base.AgentConfig_ cfg).
Qed.

Lemma invalid_cache_type_is_fatal_witness :
  SetConfig (Examples.env (Examples.cacheConf true 5 "fifo" false "" true 600) false)
    Examples.cfgBytes NewPlugin
  = Ret (Some (Errorf "unexpected cache type specified, expected types: [lfu, arc, lru, simple], but specififed %s"
                 [ArgStr "fifo"]))
      (set_config (Examples.cacheConf true 5 "fifo" false "" true 600) NewPlugin).
Proof.
  destruct (invalid_cache_type_is_fatal
              (Examples.env (Examples.cacheConf true 5 "fifo" false "" true 600) false)
              (Examples.cacheConf true 5 "fifo" false "" true 600) eq_refl)
    as [_ H].
  destruct (H Examples.cfgBytes NewPlugin eq_refl eq_refl) as [Hrun _].
  - reflexivity.
  - intros _. reflexivity.
  - exact Hrun.
Defined.

(** C4: when pre-caching is enabled and the walk of the modules directory
    has found more [.wasm] modules than the configured cache size (the walk
    is reached with a valid cache type and a positive size),
    [configureCache] fails with the error that carries the cache size and
    the number of modules found, and so does [SetConfig] for a configuration
    with the cache enabled.  No event is recorded: no module is loaded,
    serialized or put into the cache, which is the empty one just built. *)
Theorem precache_exceeding_cache_size_fails
  (E : Env) (config_ : Config.t) (modulesPath : list string) :
  let cacheConf := Config.Cache config_ in
  validType (CacheConfig.Type_ cacheConf) = true ->
  0 < CacheConfig.Size cacheConf ->
  PreCacheConfig.Enabled (CacheConfig.PreCache cacheConf) = true ->
  discover E (PreCacheConfig.ModulesDir (CacheConfig.PreCache cacheConf))
  = Ret None modulesPath ->
  CacheConfig.Size cacheConf < Z.of_nat (length modulesPath) ->
  let err :=
    Errorf "cache size (%v) must not be less then number of pre-cached modules (%v)"
      [ArgInt (CacheConfig.Size cacheConf);
       ArgInt (Z.of_nat (length modulesPath))] in
  (forall d,
     config d = config_ ->
     exists d',
       configureCache E d = Ret (Some err) d'
       /\ trace d' = trace d
       /\ modulesCache d' = Some (builtCache cacheConf)
       /\ gcache.items (builtCache cacheConf) = [])
  /\ (forall cfg d,
        decodePluginConfig E cfg = inr config_ ->
        CacheConfig.Enabled cacheConf = true ->
        (ExpirationConfig.Enabled (CacheConfig.Expiration cacheConf) = true ->
         0 < ExpirationConfig.EntryTTL (CacheConfig.Expiration cacheConf)) ->
        exists d',
          SetConfig E cfg d = Ret (Some err) d'
          /\ trace d' = trace d
          /\ modulesCache d' = Some (builtCache cacheConf)).
Proof.
  intros cacheConf Hv Hs Hpre Hwalk Hlen err.
  assert (Hcc : forall d,
             config d = config_ ->
             configureCache E d
             = Ret (Some err) (set_modulesCache (Some (builtCache cacheConf)) d)).
  { intros d Hd.
    pose proof (configureCache_built E d) as Hb. cbn zeta in Hb.
    rewrite Hd in Hb. fold cacheConf in Hb.
    rewrite (Hb Hv Hs), Hpre, Hwalk.
    apply Z.gtb_lt in Hlen. now rewrite Hlen. }
  split.
  - intros d Hd. eexists. split; [now apply Hcc|]. now cbn.
  - intros cfg d Hdec Hen Httl.
    eexists. split.
    + rewrite (SetConfig_validated E cfg d config_ Hdec Hs Httl).
      fold cacheConf. rewrite Hen. apply Hcc. apply withAgent_config.
    + cbn. split; [|reflexivity].
      unfold withAgent. now destruct (base.AgentConfig_ cfg).
Qed.

Lemma precache_exceeding_cache_size_fails_witness :
  SetConfig (Examples.env (Examples.cacheConf true 2 "lfu" true "/modules" true 600) false)
    Examples.cfgBytes NewPlugin
  = Ret (Some (Errorf "cache size (%v) must not be less then number of pre-cached modules (%v)"
                 [ArgInt 2; ArgInt 3]))
      (set_modulesCache
         (Some (builtCache
                  (Config.Cache (Examples.cacheConf true 2 "lfu" true "/modules" true 600))))
         (set_config (Examples.cacheConf true 2 "lfu" true "/modules" true 600)
            NewPlugin)).
Proof.
  destruct (precache_exceeding_cache_size_fails
              (Examples.env (Examples.cacheConf true 2 "lfu" true "/modules" true 600) false)
              (Examples.cacheConf true 2 "lfu" true "/modules" true 600)
              ["/modules/a.wasm"; "/modules/b.wasm"; "/modules/sub/c.wasm"]
              eq_refl eq_refl eq_refl eq_refl eq_refl)
    as [_ H].
  destruct (H Examples.cfgBytes NewPlugin eq_refl eq_refl) as (d' & Hrun & _).
  - intros _. reflexivity.
  - rewrite Hrun. f_equal.
    assert (Hd : Some d' = Some (final_state
                   (SetConfig (Examples.env (Examples.cacheConf true 2 "lfu" true "/modules" true 600) false)
                      Examples.cfgBytes NewPlugin)))
      by now rewrite Hrun.
    injection Hd as ->. reflexivity.
Defined.


(** C5: in the warm-up, let [p] be the first module that fails to load, to
    serialize or to be put into the cache (the modules [pre] found before it
    are all warmed up, which leads to the state [d1]).  Then
    [configureCache] returns one of the three warm-up errors with the path
    [p] as its first argument; after [d1] only events about [p] are
    recorded, and the outcome is that of the loop run on [pre ++ [p]] alone,
    so none of the modules [post] found after [p] is processed. *)
Theorem warmup_aborts_at_first_failure
  (E : Env) (d d1 : WasmtimeDriverPlugin) (pre post : list string) (p : string) :
  let cacheConf := Config.Cache (config d) in
  let d0 := set_modulesCache (Some (builtCache cacheConf)) d in
  validType (CacheConfig.Type_ cacheConf) = true ->
  0 < CacheConfig.Size cacheConf ->
  PreCacheConfig.Enabled (CacheConfig.PreCache cacheConf) = true ->
  discover E (PreCacheConfig.ModulesDir (CacheConfig.PreCache cacheConf))
  = Ret None (pre ++ p :: post)%list ->
  Z.of_nat (length (pre ++ p :: post)%list) <= CacheConfig.Size cacheConf ->
  preCacheLoop E pre d0 = Ret None d1 ->
  module_fails E (modulesCache d1) p = true ->
  exists format rest evs d2,
    configureCache E d = Ret (Some (Errorf format (ArgStr p :: rest))) d2
    /\ In format warmupFormats
    /\ trace d2 = (trace d1 ++ evs)%list
    /\ Forall (fun ev => event_path ev = Some p) evs
    /\ preCacheLoop E (pre ++ [p]) d0
       = Ret (Some (Errorf format (ArgStr p :: rest))) d2.
Proof.
  intros cacheConf d0 Hv Hs Hpre Hwalk Hlen Hbefore Hfail.
  destruct (preCacheLoop_failing E p d1 Hfail)
    as (format & rest & evs & d2 & Hstep & Hfmt & Htr & Hevs).
  exists format, rest, evs, d2.
  assert (Hloop : forall tl,
             preCacheLoop E (pre ++ p :: tl) d0
             = Ret (Some (Errorf format (ArgStr p :: rest))) d2).
  { intros tl. rewrite preCacheLoop_app, Hbefore, preCacheLoop_cons.
    now rewrite Hstep. }
  repeat split; try assumption; [|apply Hloop].
  pose proof (configureCache_built E d) as Hb. cbn zeta in Hb.
  fold cacheConf in Hb. fold d0 in Hb.
  rewrite (Hb Hv Hs), Hpre, Hwalk.
  destruct (_ >? _) eqn:Hgt; [apply Z.gtb_lt in Hgt; lia|].
  now rewrite Hloop.
Qed.

Lemma warmup_aborts_at_first_failure_witness :
  exists d2,
    configureCache
      (Examples.env (Examples.cacheConf true 5 "lfu" true "/modules" true 600) true)
      (set_config (Examples.cacheConf true 5 "lfu" true "/modules" true 600) NewPlugin)
    = Ret (Some (Errorf "unable to load WASM module (%v) from file: %v"
                   [ArgStr "/modules/b.wasm"; ArgErr (LibErr "invalid wasm")]))
        d2
    /\ filter (fun ev => bool_decide (event_path ev = Some "/modules/sub/c.wasm"))
         (trace d2) = [].
Proof.
  pose (conf := Examples.cacheConf true 5 "lfu" true "/modules" true 600).
  pose (E := Examples.env conf true).
  pose (d := set_config conf NewPlugin).
  pose (d0 := set_modulesCache (Some (builtCache (Config.Cache conf))) d).
  destruct (warmup_aborts_at_first_failure E d
              (final_state (preCacheLoop E ["/modules/a.wasm"] d0))
              ["/modules/a.wasm"] ["/modules/sub/c.wasm"] "/modules/b.wasm"
              eq_refl eq_refl eq_refl eq_refl)
    as (format & rest & evs & d2 & Hrun & _).
  - cbn. lia.
  - reflexivity.
  - reflexivity.
  - assert (Hc : configureCache E d
                 = Ret (Some (Errorf "unable to load WASM module (%v) from file: %v"
                                [ArgStr "/modules/b.wasm"; ArgErr (LibErr "invalid wasm")]))
                     (final_state (configureCache E d)))
      by reflexivity.
    rewrite Hc in Hrun. injection Hrun as _ _ <-.
    exists (final_state (configureCache E d)). split; [exact Hc|reflexivity].
Defined.


(** ** Validation of the size and of the TTL *)

Lemma returned_map_state {S A : Type} (f : S -> S) (o : outcome S A) :
  returned (map_state f o) = returned o.
Proof. now destruct o. Qed.

(** With expiration disabled, [configureCache] does not look at the TTL. *)
Lemma configureCache_ttl E d ttl :
  ExpirationConfig.Enabled (CacheConfig.Expiration (Config.Cache (config d))) = false ->
  configureCache E (set_config (withTTL ttl (config d)) d)
  = map_state (set_config (withTTL ttl (config d))) (configureCache E d).
Proof.
  intros Hen. unfold configureCache. run. rewrite Hen.
  destruct (selectType _ _) as [cb|]; [|reflexivity].
  destruct (gcache.Build cb) as [msg|c]; [reflexivity|]. run.
  destruct (PreCacheConfig.Enabled _); [|reflexivity].
  destruct (filepath.Walk _ _ _ _) as [[err|] mp|msg mp]; try reflexivity.
  destruct (_ >? _); [reflexivity|].
  change (set_modulesCache (Some c) (set_config (withTTL ttl (config d)) d))
    with (set_config (withTTL ttl (config d)) (set_modulesCache (Some c) d)).
  rewrite preCacheLoop_set_config.
  destruct (preCacheLoop E mp _) as [[e|] d1|msg d1]; reflexivity.
Qed.

Lemma decode_withDecoded E c cfg :
  base.PluginConfig cfg <> [] ->
  decodePluginConfig (withDecoded E c) cfg = inr c.
Proof.
  intros Hne. unfold decodePluginConfig.
  destruct (base.PluginConfig cfg); [contradiction|reflexivity].
Qed.

(** C7: [SetConfig] answers an error for every decoded configuration whose
    cache size is not strictly positive, whether or not the cache is
    enabled, and for every decoded configuration with expiration enabled
    whose entry TTL is not strictly positive (the TTL error itself when the
    size is positive).  With expiration disabled the TTL is not validated:
    the answer of [SetConfig] is the same for every TTL. *)
Theorem SetConfig_validates_size_and_ttl
  (E : Env) (cfg : base.Config) (d : WasmtimeDriverPlugin) (config_ : Config.t) :
  let cacheConf := Config.Cache config_ in
  let exp := CacheConfig.Expiration cacheConf in
  (decodePluginConfig E cfg = inr config_ ->
   CacheConfig.Size cacheConf <= 0 ->
   SetConfig E cfg d
   = Ret (Some (Errorf "cache size must be > 0, but specified %v"
                  [ArgInt (CacheConfig.Size cacheConf)]))
       (set_config config_ d))
  /\ (decodePluginConfig E cfg = inr config_ ->
      ExpirationConfig.Enabled exp = true ->
      ExpirationConfig.EntryTTL exp <= 0 ->
      (exists e, SetConfig E cfg d = Ret (Some e) (set_config config_ d))
      /\ (0 < CacheConfig.Size cacheConf ->
          SetConfig E cfg d
          = Ret (Some (Errorf "cache entry time-to-live must be > 0, but specified %v"
                         [ArgInt (ExpirationConfig.EntryTTL exp)]))
              (set_config config_ d)))
  /\ (base.PluginConfig cfg <> [] ->
      ExpirationConfig.Enabled exp = false ->
      forall ttl,
        returned (SetConfig (withDecoded E (withTTL ttl config_)) cfg d)
        = returned (SetConfig (withDecoded E config_) cfg d)).
Proof.
  intros cacheConf exp. subst exp cacheConf. split; [|split].
  - intros Hdec Hs. now apply SetConfig_bad_size.
  - intros Hdec Hen Httl. split.
    + destruct (Z_le_gt_dec (CacheConfig.Size (Config.Cache config_)) 0) as [Hs|Hs].
      * eexists. now apply SetConfig_bad_size.
      * eexists. apply SetConfig_bad_ttl; [assumption|lia|assumption|assumption].
    + intros Hs. now apply SetConfig_bad_ttl.
  - intros Hne Hen ttl.
    pose proof (decode_withDecoded E config_ cfg Hne) as Hd2.
    pose proof (decode_withDecoded E (withTTL ttl config_) cfg Hne) as Hd1.
    destruct (Z_le_gt_dec (CacheConfig.Size (Config.Cache config_)) 0) as [Hs|Hs].
    { rewrite (SetConfig_bad_size _ cfg d _ Hd1) by exact Hs.
      now rewrite (SetConfig_bad_size _ cfg d _ Hd2) by exact Hs. }
    assert (Hs' : 0 < CacheConfig.Size (Config.Cache config_)) by lia.
    rewrite (SetConfig_validated _ cfg d _ Hd1);
      [|exact Hs'|cbn; rewrite Hen; discriminate].
    rewrite (SetConfig_validated _ cfg d _ Hd2);
      [|exact Hs'|rewrite Hen; discriminate].
    change (CacheConfig.Enabled (Config.Cache (withTTL ttl config_)))
      with (CacheConfig.Enabled (Config.Cache config_)).
    destruct (CacheConfig.Enabled (Config.Cache config_)); [|reflexivity].
    change (configureCache (withDecoded E (withTTL ttl config_)))
      with (configureCache E).
    change (configureCache (withDecoded E config_)) with (configureCache E).
    set (d2 := withAgent cfg (set_config config_ d)).
    assert (Hc2 : config d2 = config_) by apply withAgent_config.
    assert (Hd : withAgent cfg (set_config (withTTL ttl config_) d)
                 = set_config (withTTL ttl (config d2)) d2).
    { rewrite Hc2. unfold d2, withAgent.
      now destruct (base.AgentConfig_ cfg). }
    rewrite Hd, configureCache_ttl by (rewrite Hc2; exact Hen).
    apply returned_map_state.
Qed.

Lemma SetConfig_validates_size_and_ttl_witness :
  SetConfig (Examples.env (Examples.cacheConf false (-1) "lfu" false "" true 600) false)
    Examples.cfgBytes NewPlugin
  = Ret (Some (Errorf "cache size must be > 0, but specified %v" [ArgInt (-1)]))
      (set_config (Examples.cacheConf false (-1) "lfu" false "" true 600) NewPlugin)
  /\ SetConfig (Examples.env (Examples.cacheConf true 5 "lfu" false "" true 0) false)
       Examples.cfgBytes NewPlugin
     = Ret (Some (Errorf "cache entry time-to-live must be > 0, but specified %v"
                    [ArgInt 0]))
         (set_config (Examples.cacheConf true 5 "lfu" false "" true 0) NewPlugin)
  /\ returned
       (SetConfig
          (withDecoded (Examples.env Examples.defaultConfig false)
             (withTTL (-7) (Examples.cacheConf true 5 "lfu" false "" false 600)))
          Examples.cfgBytes NewPlugin)
     = inl None.
Proof.
  split; [|split].
  - destruct (SetConfig_validates_size_and_ttl
                (Examples.env (Examples.cacheConf false (-1) "lfu" false "" true 600) false)
                Examples.cfgBytes NewPlugin
                (Examples.cacheConf false (-1) "lfu" false "" true 600))
      as (H & _ & _).
    apply H; [reflexivity|cbn; lia].
  - destruct (SetConfig_validates_size_and_ttl
                (Examples.env (Examples.cacheConf true 5 "lfu" false "" true 0) false)
                Examples.cfgBytes NewPlugin
                (Examples.cacheConf true 5 "lfu" false "" true 0))
      as (_ & H & _).
    destruct H as [_ H]; [reflexivity|reflexivity|cbn; lia|].
    apply H. cbn. lia.
  - destruct (SetConfig_validates_size_and_ttl
                (Examples.env Examples.defaultConfig false)
                Examples.cfgBytes NewPlugin
                (Examples.cacheConf true 5 "lfu" false "" false 600))
      as (_ & _ & H).
    rewrite H; [reflexivity|discriminate|reflexivity].
Defined.


(** ** The visitor of the directory walk *)

Lemma walk_FsDir {S : Type} (walkFn : filepath.WalkFunc S) path name readErr entries s :
  filepath.walk walkFn path (filepath.FsDir name readErr entries) s
  = match walkFn path (Some (filepath.mkFileInfo name true)) readErr s with
    | Panic msg s1 => Panic msg s1
    | Ret err1 s1 =>
        if notNil readErr || notNil err1 then Ret err1 s1
        else filepath.walk_entries walkFn path entries s1
    end.
Proof. reflexivity. Qed.

Lemma walk_entries_FsEntry {S : Type} (walkFn : filepath.WalkFunc S) path n rest s :
  filepath.walk_entries walkFn path (filepath.FsEntry n rest) s
  = match filepath.walk walkFn
            (filepath.Join path (filepath.Name (filepath.info n))) n s with
    | Panic msg s1 => Panic msg s1
    | Ret err s1 =>
        if notNil err
           && (negb (filepath.IsDir (filepath.info n))
               || negb (filepath.is_SkipDir err))
        then Ret err s1
        else filepath.walk_entries walkFn path rest s1
    end.
Proof. reflexivity. Qed.

Lemma walk_preCacheVisitor n :
  forall path s, nil_or_nil_deref (filepath.walk preCacheVisitor path n s).
Proof.
  induction n as [name|name readErr entries IHes| |n IHn rest IHrest|name e rest IHrest]
    using fsnode_mut
    with (P0 := fun es =>
                  forall path s,
                    nil_or_nil_deref
                      (filepath.walk_entries preCacheVisitor path es s));
    intros path s.
  - cbn. left. destruct (strings.HasSuffix name ".wasm"); eauto.
  - rewrite walk_FsDir. cbn [preCacheVisitor filepath.IsDir negb andb].
    destruct readErr as [e|]; cbn [notNil orb]; [left; eauto|]. apply IHes.
  - cbn. left. eauto.
  - rewrite walk_entries_FsEntry.
    destruct (IHn (filepath.Join path (filepath.Name (filepath.info n))) s)
      as [[s1 ->]|[s1 ->]].
    + cbn [notNil andb]. apply IHrest.
    + right. eauto.
  - cbn. right. eauto.
Qed.

Lemma Walk_preCacheVisitor lstat root s :
  nil_or_nil_deref (filepath.Walk preCacheVisitor lstat root s).
Proof.
  unfold filepath.Walk. destruct lstat as [e|n].
  - cbn. right. eauto.
  - destruct (walk_preCacheVisitor n root s) as [[s1 ->]|[s1 ->]].
    + left. eauto.
    + right. eauto.
Qed.

(** C10: the visitor [configureCache] gives to [filepath.Walk] returns nil
    for every entry that comes with a [FileInfo] and does not depend on its
    error argument; on an entry that comes with a nil [FileInfo] it panics
    with a nil dereference instead of returning an error.  Hence the walk
    never answers an error, and [configureCache] never returns the "unable
    to get WASM modules for pre-cache" error. *)
Theorem preCacheVisitor_never_reports (E : Env) :
  (forall path i err modulesPath,
     exists modulesPath',
       preCacheVisitor path (Some i) err modulesPath = Ret None modulesPath')
  /\ (forall path info err modulesPath,
        preCacheVisitor path info err modulesPath
        = preCacheVisitor path info None modulesPath)
  /\ (forall path err modulesPath,
        preCacheVisitor path None err modulesPath = Panic nil_deref modulesPath)
  /\ (forall lstat root s e s',
        filepath.Walk preCacheVisitor lstat root s <> Ret (Some e) s')
  /\ (forall d args d',
        configureCache E d
        <> Ret (Some (Errorf "unable to get WASM modules for pre-cache from %s directory: %v"
                        args)) d').
Proof.
  split; [|split; [|split; [|split]]].
  - intros path i err mp. unfold preCacheVisitor.
    destruct (negb (filepath.IsDir i) && _); eauto.
  - reflexivity.
  - reflexivity.
  - intros lstat root s e s' H.
    destruct (Walk_preCacheVisitor lstat root s) as [[s1 H1]|[s1 H1]];
      rewrite H1 in H; discriminate.
  - intros d args d'. unfold configureCache. run.
    destruct (selectType _ _) as [cb|]; [|discriminate].
    destruct (gcache.Build cb) as [msg|c]; [discriminate|]. run.
    destruct (PreCacheConfig.Enabled _); [|discriminate].
    destruct (Walk_preCacheVisitor
                (Lstat E (PreCacheConfig.ModulesDir
                            (CacheConfig.PreCache (Config.Cache (config d)))))
                (PreCacheConfig.ModulesDir
                   (CacheConfig.PreCache (Config.Cache (config d)))) [])
      as [[s1 H1]|[s1 H1]]; rewrite H1; [|discriminate].
    destruct (_ >? _); [discriminate|].
    destruct (preCacheLoop E s1 _) as [[e|] d1|msg d1] eqn:Hloop;
      [|destruct (ExpirationConfig.Enabled _); discriminate|discriminate].
    apply preCacheLoop_errors in Hloop.
    destruct Hloop as (format & args0 & -> & Hin).
    cbn. intros Heq. injection Heq as Hf _ _. subst format.
    unfold warmupFormats in Hin. cbn in Hin.
    destruct Hin as [H|[H|[H|[]]]]; discriminate.
Qed.


(** * Further properties of the driver *)

(** ** What the directory walk collects *)

Lemma walk_entries_FsBroken {S : Type} (walkFn : filepath.WalkFunc S) path name e rest s :
  filepath.walk_entries walkFn path (filepath.FsBroken name e rest) s
  = match walkFn (filepath.Join path name) None (Some e) s with
    | Panic msg s1 => Panic msg s1
    | Ret err s1 =>
        if notNil err && negb (filepath.is_SkipDir err) then Ret err s1
        else filepath.walk_entries walkFn path rest s1
    end.
Proof. reflexivity. Qed.

Lemma walk_collects n :
  forall path s,
    if visits_broken n
    then exists s', filepath.walk preCacheVisitor path n s = Panic nil_deref s'
    else filepath.walk preCacheVisitor path n s
         = Ret None (s ++ wasm_files path n)%list.
Proof.
  induction n as [name|name readErr entries IHes| |n IHn rest IHrest|name e rest IHrest]
    using fsnode_mut
    with (P0 := fun es =>
                  forall path s,
                    if entries_broken es
                    then exists s',
                        filepath.walk_entries preCacheVisitor path es s
                        = Panic nil_deref s'
                    else filepath.walk_entries preCacheVisitor path es s
                         = Ret None (s ++ wasm_entries path es)%list);
    intros path s.
  - cbn. destruct (strings.HasSuffix name ".wasm"); cbn;
      [reflexivity|now rewrite app_nil_r].
  - rewrite walk_FsDir. cbn [preCacheVisitor filepath.IsDir negb andb].
    destruct readErr as [e|]; cbn [notNil orb visits_broken wasm_files].
    + now rewrite app_nil_r.
    + apply IHes.
  - cbn. now rewrite app_nil_r.
  - rewrite walk_entries_FsEntry. cbn [entries_broken wasm_entries].
    specialize (IHn (filepath.Join path (filepath.Name (filepath.info n))) s).
    destruct (visits_broken n).
    + destruct IHn as [s' ->]. cbn. eauto.
    + rewrite IHn. cbn [notNil andb orb].
      specialize (IHrest path
                    (s ++ wasm_files (filepath.Join path (filepath.Name (filepath.info n))) n)%list).
      destruct (entries_broken rest).
      * exact IHrest.
      * now rewrite IHrest, app_assoc.
  - rewrite walk_entries_FsBroken. cbn. eauto.
Qed.





(** [filepath.Clean] on the cases of the table Go's path/filepath package
    is tested with. *)
Example Clean_cases :
  map filepath.Clean
    [""; "abc"; "abc/def"; "."; ".."; "../.."; "../../abc"; "/abc"; "/";
     "abc/"; "abc/def/"; "./"; "../"; "../../"; "/abc/";
     "abc//def//ghi"; "//abc"; "///abc"; "//abc//"; "abc//";
     "abc/./def"; "/./abc/def"; "abc/.";
     "abc/def/ghi/../jkl"; "abc/def/../ghi/../jkl"; "abc/def/..";
     "abc/def/../.."; "/abc/def/../.."; "abc/def/../../..";
     "/abc/def/../../.."; "abc/def/../../../ghi/jkl/../../../mno";
     "/../abc"; "abc/./../def"; "abc//./../def"; "abc/../../././../def"]
  = ["."; "abc"; "abc/def"; "."; ".."; "../.."; "../../abc"; "/abc"; "/";
     "abc"; "abc/def"; "."; ".."; "../.."; "/abc";
     "abc/def/ghi"; "/abc"; "/abc"; "/abc"; "abc";
     "abc/def"; "/abc/def"; "abc";
     "abc/def/jkl"; "abc/jkl"; "abc";
     "."; "/"; "..";
     "/"; "../../mno";
     "/abc"; "def"; "def"; "../../def"].
Proof. reflexivity. Qed.

(** [filepath.Join] of a directory and an entry name: the result is cleaned,
    so a trailing separator or a leading [./] of the directory is gone. *)
Example Join_cases :
  map (fun p => filepath.Join (fst p) (snd p))
    [("a", "b"); ("a", ""); ("", "b"); ("/", "a"); ("a/", "b"); ("", "");
     ("/modules", "a.wasm"); ("/modules/", "a.wasm");
     ("./fs/modules", "a.wasm"); (".", "a.wasm"); ("fs/../modules", "a.wasm")]
  = ["a/b"; "a"; "b"; "/a"; "a/b"; "";
     "/modules/a.wasm"; "/modules/a.wasm";
     "fs/modules/a.wasm"; "a.wasm"; "modules/a.wasm"].
Proof. reflexivity. Qed.













(** X1: on a directory none of whose visited entries fails [lstat], the walk
    of [configureCache] collects exactly the entries below it that are not
    directories and are named [*.wasm] (regular files, and symbolic links,
    sockets or devices of such a name as well), in walk order, under the
    paths [filepath.Join] gives them, skipping the content of directories
    that cannot be read; it panics with a nil dereference exactly when
    [lstat] fails on the directory itself or on a visited entry. *)
Theorem discover_lists_wasm_files (E : Env) (dir : string) :
  (forall e, Lstat E dir = inl e -> discover E dir = Panic nil_deref [])
  /\ (forall n,
        Lstat E dir = inr n ->
        (visits_broken n = false -> discover E dir = Ret None (wasm_files dir n))
        /\ (visits_broken n = true ->
            exists s, discover E dir = Panic nil_deref s)).
Proof.
  unfold discover, filepath.Walk. split.
  - intros e ->. reflexivity.
  - intros n ->. pose proof (walk_collects n dir []) as H. split; intros Hb;
      rewrite Hb in H.
    + now rewrite H.
    + destruct H as [s' ->]. eauto.
Qed.

Lemma discover_lists_wasm_files_witness :
  discover (Examples.env Examples.defaultConfig false) "/modules"
  = Ret None ["/modules/a.wasm"; "/modules/b.wasm"; "/modules/sub/c.wasm"]
  /\ discover (Examples.env Examples.defaultConfig false) "/nowhere"
     = Panic nil_deref [].
Proof.
  destruct (discover_lists_wasm_files
              (Examples.env Examples.defaultConfig false) "/modules") as [_ H].
  destruct (H Examples.modulesTree eq_refl) as [Hok _].
  destruct (discover_lists_wasm_files
              (Examples.env Examples.defaultConfig false) "/nowhere") as [Hno _].
  split.
  - apply Hok. reflexivity.
  - apply (Hno Examples.no_such_file). reflexivity.
Defined.



(** ** What [SetConfig] accepts, stores and leaves alone *)

Lemma passes_checks_true c :
  passes_checks c = true <->
  0 < CacheConfig.Size (Config.Cache c)
  /\ (ExpirationConfig.Enabled (CacheConfig.Expiration (Config.Cache c)) = true ->
      0 < ExpirationConfig.EntryTTL (CacheConfig.Expiration (Config.Cache c))).
Proof.
  unfold passes_checks. rewrite andb_true_iff, Z.ltb_lt, negb_true_iff.
  destruct (ExpirationConfig.Enabled _); cbn [andb].
  - rewrite Z.leb_gt. intuition.
  - intuition discriminate.
Qed.

Lemma SetConfig_fails_checks E cfg d config_ :
  decodePluginConfig E cfg = inr config_ ->
  passes_checks config_ = false ->
  exists e, SetConfig E cfg d = Ret (Some e) (set_config config_ d).
Proof.
  intros Hdec Hp.
  destruct (Z_le_gt_dec (CacheConfig.Size (Config.Cache config_)) 0) as [Hs|Hs].
  { eexists. now apply SetConfig_bad_size. }
  destruct (ExpirationConfig.Enabled (CacheConfig.Expiration (Config.Cache config_))) eqn:Hen.
  - destruct (Z_le_gt_dec (ExpirationConfig.EntryTTL (CacheConfig.Expiration (Config.Cache config_))) 0)
      as [Ht|Ht].
    + eexists. apply SetConfig_bad_ttl; [assumption|lia|assumption|assumption].
    + assert (passes_checks config_ = true)
        by (apply passes_checks_true; split; [lia|intros _; lia]).
      congruence.
  - assert (passes_checks config_ = true)
      by (apply passes_checks_true; split; [lia|rewrite Hen; discriminate]).
    congruence.
Qed.

Lemma SetConfig_passes_checks E cfg d config_ :
  decodePluginConfig E cfg = inr config_ ->
  passes_checks config_ = true ->
  SetConfig E cfg d
  = if CacheConfig.Enabled (Config.Cache config_)
    then configureCache E (withAgent cfg (set_config config_ d))
    else Ret None (withAgent cfg (set_config config_ d)).
Proof.
  intros Hdec Hp. apply passes_checks_true in Hp as [Hs Ht].
  now apply SetConfig_validated.
Qed.

(** The warm-up loop never panics once the cache is there, and keeps it
    there. *)
Lemma preCacheLoop_cache l :
  forall E d,
    is_Some (modulesCache d) ->
    exists r d', preCacheLoop E l d = Ret r d' /\ is_Some (modulesCache d').
Proof.
  induction l as [|p l IH]; intros E d Hc; [cbn; eauto|].
  rewrite preCacheLoop_cons.
  assert (Hstep : exists r d1,
             preCacheLoop E [p] d = Ret r d1 /\ is_Some (modulesCache d1)).
  { cbn [preCacheLoop]. run.
    destruct (NewModuleFromFile E p) as [err|m]; [cbn; eauto|]. run.
    destruct (Serialize E m) as [err|ser]; [cbn; eauto|]. run.
    unfold modulesCache_Set. cbn.
    destruct Hc as [c Hc]. rewrite Hc.
    destruct (cache_Set E c p ser) as [[e|] c1]; cbn; eauto. }
  destruct Hstep as ([e|] & d1 & -> & Hc1); [eauto|]. now apply IH.
Qed.

(** [configureCache] touches the cache and the trace only. *)
Lemma configureCache_frame E d :
  let d' := final_state (configureCache E d) in
  config d' = config d /\ nomadConfig d' = nomadConfig d
  /\ tasks d' = tasks d /\ heap d' = heap d /\ chans d' = chans d.
Proof.
  unfold configureCache. run.
  destruct (selectType _ _) as [cb|]; [|cbn; auto].
  destruct (gcache.Build cb) as [msg|c]; [cbn; auto|]. run.
  destruct (PreCacheConfig.Enabled _); [|cbn; auto].
  destruct (filepath.Walk _ _ _ _) as [[err|] mp|msg mp]; try (cbn; now auto).
  destruct (_ >? _); [cbn; auto|].
  pose proof (preCacheLoop_frame E mp (set_modulesCache (Some c) d)) as Hf.
  cbn zeta in Hf.
  destruct (preCacheLoop E mp _) as [[e|] d1|msg d1]; cbn in Hf |- *;
    try exact Hf.
  destruct (ExpirationConfig.Enabled _); cbn; exact Hf.
Qed.

Lemma withAgent_frame cfg d :
  tasks (withAgent cfg d) = tasks d /\ heap (withAgent cfg d) = heap d
  /\ chans (withAgent cfg d) = chans d /\ trace (withAgent cfg d) = trace d
  /\ modulesCache (withAgent cfg d) = modulesCache d.
Proof. unfold withAgent. destruct (base.AgentConfig_ cfg); cbn; auto. Qed.

(** [SetConfig] never touches the task store, the handles or the
    channels. *)
Lemma SetConfig_frame E cfg d :
  let d' := final_state (SetConfig E cfg d) in
  tasks d' = tasks d /\ heap d' = heap d /\ chans d' = chans d.
Proof.
  cbn zeta.
  destruct (decodePluginConfig E cfg) as [err|config_] eqn:Hdec.
  { rewrite (SetConfig_decode_fails E cfg d err Hdec). cbn. auto. }
  destruct (passes_checks config_) eqn:Hp.
  - rewrite (SetConfig_passes_checks E cfg d config_ Hdec Hp).
    destruct (withAgent_frame cfg (set_config config_ d)) as (Ht & Hh & Hc & _).
    destruct (CacheConfig.Enabled _); [|cbn; auto].
    destruct (configureCache_frame E (withAgent cfg (set_config config_ d)))
      as (_ & _ & -> & -> & ->).
    auto.
  - destruct (SetConfig_fails_checks E cfg d config_ Hdec Hp) as [e ->].
    cbn. auto.
Qed.

(** X3: the agent configuration of the call is stored exactly when the
    plugin configuration decodes and passes the size and TTL checks and the
    call carries one; it is then stored even if the cache configuration that
    follows fails or panics.  In every other case [nomadConfig] keeps its
    value. *)
Theorem SetConfig_nomadConfig
  (E : Env) (cfg : base.Config) (d : WasmtimeDriverPlugin) :
  nomadConfig (final_state (SetConfig E cfg d))
  = match decodePluginConfig E cfg, base.AgentConfig_ cfg with
    | inr config_, Some a =>
        if passes_checks config_ then base.Driver a else nomadConfig d
    | _, _ => nomadConfig d
    end.
Proof.
  destruct (decodePluginConfig E cfg) as [err|config_] eqn:Hdec.
  { now rewrite (SetConfig_decode_fails E cfg d err Hdec). }
  destruct (passes_checks config_) eqn:Hp.
  - rewrite (SetConfig_passes_checks E cfg d config_ Hdec Hp).
    assert (Hn : nomadConfig (withAgent cfg (set_config config_ d))
                 = match base.AgentConfig_ cfg with
                   | Some a => base.Driver a
                   | None => nomadConfig d
                   end).
    { unfold withAgent. now destruct (base.AgentConfig_ cfg). }
    destruct (CacheConfig.Enabled _).
    + destruct (configureCache_frame E (withAgent cfg (set_config config_ d)))
        as (_ & -> & _).
      rewrite Hn. now destruct (base.AgentConfig_ cfg).
    + cbn [final_state]. rewrite Hn. now destruct (base.AgentConfig_ cfg).
  - destruct (SetConfig_fails_checks E cfg d config_ Hdec Hp) as [e ->].
    cbn. now destruct (base.AgentConfig_ cfg).
Qed.

(** X4: without pre-caching (the cache disabled, or pre-caching disabled),
    [SetConfig] never panics and answers nil exactly for the decoded
    configurations with a positive size, a positive TTL when expiration is
    enabled, and one of the four known cache types when the cache is
    enabled.  With the cache disabled neither the type nor the pre-cache
    block is looked at and the cache of the plugin is left alone; with the
    cache enabled, an accepted configuration replaces the cache of the
    plugin by a new, empty one. *)
Theorem SetConfig_accepts_iff_acceptable
  (E : Env) (cfg : base.Config) (d : WasmtimeDriverPlugin) (config_ : Config.t) :
  decodePluginConfig E cfg = inr config_ ->
  CacheConfig.Enabled (Config.Cache config_)
  && PreCacheConfig.Enabled (CacheConfig.PreCache (Config.Cache config_)) = false ->
  exists r d',
    SetConfig E cfg d = Ret r d'
    /\ (r = None <-> acceptable config_ = true)
    /\ (CacheConfig.Enabled (Config.Cache config_) = false ->
        modulesCache d' = modulesCache d /\ trace d' = trace d)
    /\ (CacheConfig.Enabled (Config.Cache config_) = true -> r = None ->
        modulesCache d' = Some (builtCache (Config.Cache config_))
        /\ trace d' = trace d).
Proof.
  intros Hdec Hpre. unfold acceptable.
  destruct (passes_checks config_) eqn:Hp.
  - rewrite (SetConfig_passes_checks E cfg d config_ Hdec Hp).
    destruct (withAgent_frame cfg (set_config config_ d)) as (_ & _ & _ & Htr & Hmc).
    destruct (CacheConfig.Enabled (Config.Cache config_)) eqn:Hen.
    + cbn [andb negb orb] in *.
      destruct (validType (CacheConfig.Type_ (Config.Cache config_))) eqn:Hv.
      * pose proof (configureCache_built E (withAgent cfg (set_config config_ d))) as Hb.
        cbn zeta in Hb. rewrite withAgent_config in Hb.
        cbn [set_config config] in Hb.
        apply passes_checks_true in Hp as [Hs _].
        rewrite (Hb Hv Hs), Hpre.
        do 2 eexists. split; [reflexivity|]. split; [tauto|].
        split; [discriminate|]. intros _ _. cbn. now rewrite Htr.
      * rewrite configureCache_invalid_type by (now rewrite withAgent_config).
        do 2 eexists. split; [reflexivity|].
        split; [split; discriminate|]. split; discriminate.
    + do 2 eexists. split; [reflexivity|]. cbn. split; [tauto|].
      split; [|discriminate]. intros _. now rewrite Hmc, Htr.
  - destruct (SetConfig_fails_checks E cfg d config_ Hdec Hp) as [e ->].
    do 2 eexists. split; [reflexivity|]. cbn.
    split; [split; discriminate|]. split; [auto|discriminate].
Qed.

Lemma SetConfig_accepts_iff_acceptable_witness :
  (exists d',
     SetConfig (Examples.env (Examples.cacheConf false 5 "fifo" true "/nowhere" false 0) false)
       Examples.cfgBytes NewPlugin = Ret None d'
     /\ modulesCache d' = None)
  /\ acceptable (Examples.cacheConf true 5 "fifo" false "" true 600) = false.
Proof.
  split; [|reflexivity].
  destruct (SetConfig_accepts_iff_acceptable
              (Examples.env (Examples.cacheConf false 5 "fifo" true "/nowhere" false 0) false)
              Examples.cfgBytes NewPlugin
              (Examples.cacheConf false 5 "fifo" true "/nowhere" false 0)
              eq_refl eq_refl)
    as (r & d' & Hrun & Hr & Hoff & _).
  assert (Hnil : r = None) by (apply Hr; reflexivity).
  subst r. exists d'. split; [exact Hrun|].
  destruct (Hoff eq_refl) as [-> _]. reflexivity.
Defined.


(** ** A warm-up that succeeds, and the panics of [SetConfig] *)

Lemma preCacheLoop_all_ok E l :
  (forall p, In p l ->
     exists m ser, NewModuleFromFile E p = inr m /\ Serialize E m = inr ser) ->
  (forall c k v, fst (cache_Set E c k v) = None) ->
  forall d c,
    modulesCache d = Some c ->
    exists d',
      preCacheLoop E l d = Ret None d'
      /\ trace d' = (trace d ++ warmupEvents l)%list
      /\ modulesCache d' = Some (warmed E c l).
Proof.
  intros Hload Hset. induction l as [|p l IH]; intros d c Hc.
  { exists d. cbn. now rewrite app_nil_r. }
  destruct (Hload p (or_introl eq_refl)) as (m & ser & Hm & Hser).
  assert (Hone : warm_one E c p = snd (cache_Set E c p ser)).
  { unfold warm_one. now rewrite Hm, Hser. }
  assert (Hstep : preCacheLoop E [p] d
                  = Ret None
                      (set_modulesCache (Some (warm_one E c p))
                         (set_trace
                            (trace d ++ [EvNewModuleFromFile p; EvSerialize p;
                                         EvCacheSet p;
                                         EvLog "trace" "WASM module pre-cached"])
                            d))).
  { rewrite Hone. cbn [preCacheLoop]. run. rewrite Hm. run. rewrite Hser. run.
    unfold modulesCache_Set. cbn. rewrite Hc.
    pose proof (Hset c p ser) as Hnil.
    destruct (cache_Set E c p ser) as [err c1]. cbn in Hnil. subst err.
    cbn. now rewrite <- !app_assoc. }
  rewrite preCacheLoop_cons, Hstep.
  assert (Hload' : forall q, In q l ->
             exists m ser, NewModuleFromFile E q = inr m /\ Serialize E m = inr ser)
    by (intros q Hq; apply Hload; now right).
  destruct (IH Hload'
              (set_modulesCache (Some (warm_one E c p))
                 (set_trace
                    (trace d ++ [EvNewModuleFromFile p; EvSerialize p;
                                 EvCacheSet p;
                                 EvLog "trace" "WASM module pre-cached"])
                    d))
              (warm_one E c p) eq_refl)
    as (d' & Hrun & Htr & Hc').
  exists d'. split; [exact Hrun|]. split; [|exact Hc'].
  rewrite Htr. cbn [trace set_modulesCache set_trace warmupEvents flat_map].
  now rewrite <- !app_assoc.
Qed.

(** X5: with the cache and pre-caching enabled, if the walk finds no more
    modules than the cache size (a count equal to the size is accepted) and
    every module found loads and serializes and the cache accepts every
    insertion, then [SetConfig] succeeds; it loads, serializes and inserts
    each module exactly once, in walk order, and then logs the TTL warning
    exactly when expiration is enabled.  The cache the plugin is left with
    is the newly built one after [Set] has been called on it, in walk order,
    with each module path and the serialized module. *)
Theorem SetConfig_warms_every_module
  (E : Env) (cfg : base.Config) (d : WasmtimeDriverPlugin) (config_ : Config.t)
  (modulesPath : list string) :
  let cacheConf := Config.Cache config_ in
  decodePluginConfig E cfg = inr config_ ->
  acceptable config_ = true ->
  CacheConfig.Enabled cacheConf = true ->
  PreCacheConfig.Enabled (CacheConfig.PreCache cacheConf) = true ->
  discover E (PreCacheConfig.ModulesDir (CacheConfig.PreCache cacheConf))
  = Ret None modulesPath ->
  Z.of_nat (length modulesPath) <= CacheConfig.Size cacheConf ->
  (forall p, In p modulesPath ->
     exists m ser, NewModuleFromFile E p = inr m /\ Serialize E m = inr ser) ->
  (forall c k v, fst (cache_Set E c k v) = None) ->
  exists d',
    SetConfig E cfg d = Ret None d'
    /\ trace d'
       = (trace d ++ warmupEvents modulesPath
          ++ (if ExpirationConfig.Enabled (CacheConfig.Expiration cacheConf)
              then [ttlWarning] else []))%list
    /\ modulesCache d' = Some (warmed E (builtCache cacheConf) modulesPath).
Proof.
  intros cacheConf Hdec Hacc Hen Hpre Hwalk Hlen Hload Hset. subst cacheConf.
  unfold acceptable in Hacc. apply andb_true_iff in Hacc as [Hp Hv].
  rewrite Hen in Hv. cbn [negb orb] in Hv.
  rewrite (SetConfig_passes_checks E cfg d config_ Hdec Hp), Hen.
  pose proof (configureCache_built E (withAgent cfg (set_config config_ d))) as Hb.
  cbn zeta in Hb. rewrite withAgent_config in Hb. cbn [set_config config] in Hb.
  apply passes_checks_true in Hp as [Hs _].
  rewrite (Hb Hv Hs), Hpre, Hwalk.
  destruct (_ >? _) eqn:Hgt; [apply Z.gtb_lt in Hgt; lia|].
  destruct (preCacheLoop_all_ok E modulesPath Hload Hset
              (set_modulesCache (Some (builtCache (Config.Cache config_)))
                 (withAgent cfg (set_config config_ d)))
              (builtCache (Config.Cache config_)) eq_refl)
    as (d1 & Hrun & Htr & Hc).
  rewrite Hrun.
  assert (Htr0 : trace d1 = (trace d ++ warmupEvents modulesPath)%list).
  { rewrite Htr. cbn [trace set_modulesCache].
    destruct (withAgent_frame cfg (set_config config_ d)) as (_ & _ & _ & -> & _).
    reflexivity. }
  destruct (ExpirationConfig.Enabled _).
  - eexists. split; [reflexivity|]. cbn [trace set_trace modulesCache].
    rewrite Htr0, <- app_assoc. split; [reflexivity|exact Hc].
  - exists d1. split; [reflexivity|]. rewrite Htr0, app_nil_r.
    split; [reflexivity|exact Hc].
Qed.

Lemma SetConfig_warms_every_module_witness :
  exists d' c,
    SetConfig (Examples.env (Examples.cacheConf true 3 "arc" true "/modules" false 0) false)
      Examples.cfgBytes NewPlugin = Ret None d'
    /\ trace d'
       = warmupEvents ["/modules/a.wasm"; "/modules/b.wasm"; "/modules/sub/c.wasm"]
    /\ modulesCache d' = Some c
    /\ gcache.items c
       = [("/modules/a.wasm", [x01]); ("/modules/b.wasm", [x01]);
          ("/modules/sub/c.wasm", [x01])].
Proof.
  destruct (SetConfig_warms_every_module
              (Examples.env (Examples.cacheConf true 3 "arc" true "/modules" false 0) false)
              Examples.cfgBytes NewPlugin
              (Examples.cacheConf true 3 "arc" true "/modules" false 0)
              ["/modules/a.wasm"; "/modules/b.wasm"; "/modules/sub/c.wasm"]
              eq_refl eq_refl eq_refl eq_refl eq_refl)
    as (d' & Hrun & Htr & Hc).
  - cbn. lia.
  - intros p _. exists (wasmtime.mkModule [x01]), [x01]. split; reflexivity.
  - reflexivity.
  - exists d'. eexists. split; [exact Hrun|]. split; [rewrite Htr; reflexivity|].
    split; [exact Hc|reflexivity].
Defined.

(** X6: [SetConfig] can panic in one way only: with the nil dereference of
    the walk visitor, for a decoded configuration that passed every check,
    has the cache and pre-caching enabled, and whose modules directory makes
    the walk panic.  In particular the size check keeps [gcache]'s own panic
    on a non-positive size out of reach. *)
Theorem SetConfig_panics_only_in_walk
  (E : Env) (cfg : base.Config) (d d' : WasmtimeDriverPlugin) (msg : string) :
  SetConfig E cfg d = Panic msg d' ->
  msg = nil_deref
  /\ exists config_,
       decodePluginConfig E cfg = inr config_
       /\ acceptable config_ = true
       /\ CacheConfig.Enabled (Config.Cache config_) = true
       /\ PreCacheConfig.Enabled (CacheConfig.PreCache (Config.Cache config_)) = true
       /\ exists s,
            discover E (PreCacheConfig.ModulesDir
                          (CacheConfig.PreCache (Config.Cache config_)))
            = Panic nil_deref s.
Proof.
  intros Hrun.
  destruct (decodePluginConfig E cfg) as [err|config_] eqn:Hdec.
  { rewrite (SetConfig_decode_fails E cfg d err Hdec) in Hrun. discriminate. }
  destruct (passes_checks config_) eqn:Hp.
  2:{ destruct (SetConfig_fails_checks E cfg d config_ Hdec Hp) as [e He].
      rewrite He in Hrun. discriminate. }
  rewrite (SetConfig_passes_checks E cfg d config_ Hdec Hp) in Hrun.
  destruct (CacheConfig.Enabled (Config.Cache config_)) eqn:Hen; [|discriminate].
  destruct (validType (CacheConfig.Type_ (Config.Cache config_))) eqn:Hv.
  2:{ rewrite configureCache_invalid_type in Hrun
        by (now rewrite withAgent_config).
      discriminate. }
  pose proof (configureCache_built E (withAgent cfg (set_config config_ d))) as Hb.
  cbn zeta in Hb. rewrite withAgent_config in Hb. cbn [set_config config] in Hb.
  pose proof Hp as Hp'. apply passes_checks_true in Hp' as [Hs _].
  rewrite (Hb Hv Hs) in Hrun. clear Hb.
  destruct (PreCacheConfig.Enabled _) eqn:Hpre; [|discriminate].
  pose proof (Walk_preCacheVisitor
                (Lstat E (PreCacheConfig.ModulesDir
                            (CacheConfig.PreCache (Config.Cache config_))))
                (PreCacheConfig.ModulesDir
                   (CacheConfig.PreCache (Config.Cache config_))) []) as Hw.
  fold (discover E (PreCacheConfig.ModulesDir
                      (CacheConfig.PreCache (Config.Cache config_)))) in Hw.
  destruct Hw as [[s Hw]|[s Hw]]; rewrite Hw in Hrun.
  - destruct (_ >? _); [discriminate|].
    destruct (preCacheLoop_cache s E
                (set_modulesCache (Some (builtCache (Config.Cache config_)))
                   (withAgent cfg (set_config config_ d))))
      as (r & d1 & Hloop & _); [eexists; reflexivity|].
    rewrite Hloop in Hrun. destruct r; [discriminate|].
    destruct (ExpirationConfig.Enabled _); discriminate.
  - injection Hrun as <- _. split; [reflexivity|].
    exists config_. unfold acceptable. rewrite Hp, Hen, Hv.
    repeat split; eauto.
Qed.

Lemma SetConfig_panics_only_in_walk_witness :
  exists s,
    discover (Examples.env (Examples.cacheConf true 5 "lru" true "/nowhere" true 600) false)
      "/nowhere" = Panic nil_deref s.
Proof.
  destruct (SetConfig_panics_only_in_walk
              (Examples.env (Examples.cacheConf true 5 "lru" true "/nowhere" true 600) false)
              Examples.cfgBytes NewPlugin
              (final_state
                 (SetConfig
                    (Examples.env (Examples.cacheConf true 5 "lru" true "/nowhere" true 600) false)
                    Examples.cfgBytes NewPlugin))
              nil_deref eq_refl)
    as (_ & config_ & Hdec & _ & _ & _ & s & Hs).
  injection Hdec as <-. exists s. exact Hs.
Defined.

(** ** The expiration handed to the cache *)

Lemma wrap64_small z : - 2 ^ 63 <= z < 2 ^ 63 -> wrap64 z = z.
Proof. intros H. unfold wrap64. rewrite Z.mod_small; lia. Qed.

Lemma wrap64_range z : - 2 ^ 63 <= wrap64 z < 2 ^ 63.
Proof.
  unfold wrap64.
  pose proof (Z.mod_pos_bound (z + 2 ^ 63) (2 ^ 64) ltac:(lia)). lia.
Qed.

(** X7: with expiration enabled and a positive TTL of at most 9223372036
    seconds, the cache [configureCache] builds and stores has exactly the TTL
    in nanoseconds as its expiration; for every larger TTL the
    multiplication overflows [int64] and the expiration of the cache is
    smaller than the TTL asked for, though the TTL passes the check of
    [SetConfig]. *)
Theorem expiration_of_ttl (E : Env) (d : WasmtimeDriverPlugin) :
  let cacheConf := Config.Cache (config d) in
  let ttl := ExpirationConfig.EntryTTL (CacheConfig.Expiration cacheConf) in
  validType (CacheConfig.Type_ cacheConf) = true ->
  0 < CacheConfig.Size cacheConf ->
  PreCacheConfig.Enabled (CacheConfig.PreCache cacheConf) = false ->
  ExpirationConfig.Enabled (CacheConfig.Expiration cacheConf) = true ->
  0 < ttl ->
  exists c w,
    configureCache E d = Ret None (set_modulesCache (Some c) d)
    /\ gcache.expiration (gcache.built c) = Some w
    /\ (ttl <= 9223372036 -> w = 1000000000 * ttl)
    /\ (9223372036 < ttl -> w < 1000000000 * ttl).
Proof.
  intros cacheConf ttl Hv Hs Hpre Hen Hpos.
  pose proof (configureCache_built E d) as Hb. cbn zeta in Hb.
  fold cacheConf in Hb. rewrite (Hb Hv Hs), Hpre.
  exists (builtCache cacheConf). eexists. split; [reflexivity|].
  unfold builtCache. cbn [gcache.built gcache.expiration].
  rewrite Hen. split; [reflexivity|]. fold ttl.
  unfold time.mul, time.Second. split; intros Hbound.
  - apply wrap64_small. lia.
  - pose proof (wrap64_range (1000000000 * ttl)). lia.
Qed.

Lemma expiration_of_ttl_witness :
  exists c,
    configureCache (Examples.env Examples.defaultConfig false)
      (set_config Examples.defaultConfig NewPlugin)
    = Ret None
        (set_modulesCache (Some c) (set_config Examples.defaultConfig NewPlugin))
    /\ gcache.expiration (gcache.built c) = Some 600000000000.
Proof.
  destruct (expiration_of_ttl (Examples.env Examples.defaultConfig false)
              (set_config Examples.defaultConfig NewPlugin)
              eq_refl eq_refl eq_refl eq_refl)
    as (c & w & Hrun & Hw & Hsmall & _).
  - cbn. lia.
  - exists c. split; [exact Hrun|]. rewrite Hw. f_equal.
    rewrite Hsmall; [reflexivity|cbn; lia].
Defined.

(** ** Task operations on the plugin as a whole *)

Ltac split_call :=
  repeat
    (run;
     match goal with
     | |- context [match tasks ?d !! ?i with _ => _ end] =>
         destruct (tasks d !! i) eqn:?
     | |- context [match heap ?d !! ?l with _ => _ end] =>
         destruct (heap d !! l) eqn:?
     | |- context [match DecodeDriverConfig ?E ?c with _ => _ end] =>
         destruct (DecodeDriverConfig E c) eqn:?
     | |- context [match MsgPackEncode ?E ?x with _ => _ end] =>
         destruct (MsgPackEncode E x) eqn:?
     | |- context [IsRunning ?v] => destruct (IsRunning v) eqn:?
     end).

Ltac lifecycle_cases c :=
  destruct c as [cfg|cfg|handle|taskID|taskID timeout signal|taskID force
                |taskID|taskID interval|taskID signal|taskID cmd timeout];
  [discriminate|..];
  cbn [do_call];
  unfold forget, StartTask, RecoverTask, WaitTask, StopTask, DestroyTask,
    InspectTask, TaskStats, SignalTask, ExecTask;
  try destruct force;
  split_call.

(** X8: only [SetConfig] changes the stored configuration, the stored agent
    configuration and the module cache of the plugin: every task operation
    (start, recover, wait, stop, destroy, inspect, stats, signal, exec)
    leaves the three as they were, whatever it answers. *)
Theorem task_calls_leave_configuration
  (E : Env) (c : call) (d : WasmtimeDriverPlugin) :
  is_SetConfig c = false ->
  config (final_state (do_call E c d)) = config d
  /\ nomadConfig (final_state (do_call E c d)) = nomadConfig d
  /\ modulesCache (final_state (do_call E c d)) = modulesCache d.
Proof. intros Hc. lifecycle_cases c; cbn; auto. Qed.

Lemma task_calls_leave_configuration_witness :
  modulesCache
    (final_state
       (do_call (Examples.env Examples.defaultConfig false)
          (CallDestroyTask "t1" true) Examples.started))
  = modulesCache Examples.started.
Proof.
  apply (task_calls_leave_configuration
           (Examples.env Examples.defaultConfig false)
           (CallDestroyTask "t1" true) Examples.started eq_refl).
Defined.

Lemma stopped_taskConfig v :
  taskHandle.taskConfig (stopped v) = taskHandle.taskConfig v.
Proof.
  unfold stopped.
  now destruct (String.eqb (taskHandle.procState v) drivers.TaskStateExited).
Qed.

Lemma store_move_ok d d' : store_ok d -> store_move d d' -> store_ok d'.
Proof.
  intros Hok Hmove id l Hl.
  destruct Hmove as [(Ht & Hh)|[(v & Ht & Hh)|[(v & Hfree & Ht & Hh)
                    |[(l0 & v0 & Hl0 & Hh & Ht)|(id0 & Ht & Hh)]]]].
  - rewrite Ht in Hl. rewrite Hh. now apply Hok.
  - rewrite Ht in Hl. destruct (Hok _ _ Hl) as (w & Hw & Hid).
    exists w. split; [|exact Hid]. rewrite Hh, lookup_insert_ne; [exact Hw|].
    intros <-. rewrite fresh_loc_fresh in Hw. discriminate.
  - rewrite Ht in Hl. rewrite Hh.
    destruct (decide (id = drivers.ID (taskHandle.taskConfig v))) as [->|Hne].
    + rewrite lookup_insert_eq in Hl. injection Hl as <-.
      exists v. now rewrite lookup_insert_eq.
    + rewrite lookup_insert_ne in Hl by congruence.
      destruct (Hok _ _ Hl) as (w & Hw & Hid).
      exists w. split; [|exact Hid]. rewrite lookup_insert_ne; [exact Hw|].
      intros <-. rewrite fresh_loc_fresh in Hw. discriminate.
  - assert (Hl' : tasks d !! id = Some l).
    { destruct Ht as [Ht|[id0 Ht]]; rewrite Ht in Hl; [exact Hl|].
      apply lookup_delete_Some in Hl. tauto. }
    destruct (Hok _ _ Hl') as (w & Hw & Hid). rewrite Hh.
    destruct (decide (l = l0)) as [->|Hne].
    + exists (stopped v0). rewrite lookup_insert_eq. split; [reflexivity|].
      rewrite stopped_taskConfig. congruence.
    + exists w. now rewrite lookup_insert_ne by congruence.
  - rewrite Ht in Hl. apply lookup_delete_Some in Hl as [_ Hl].
    rewrite Hh. now apply Hok.
Qed.

Lemma do_call_move E c d : store_move d (final_state (do_call E c d)).
Proof.
  destruct (is_SetConfig c) eqn:Hc.
  - destruct c; try discriminate. cbn [do_call]. unfold forget.
    pose proof (SetConfig_frame E cfg d) as (Ht & Hh & _).
    left. destruct (SetConfig E cfg d); cbn in *; auto.
  - lifecycle_cases c;
      first
        [ solve [left; cbn; auto]
        | solve [right; left; eexists; cbn; split; reflexivity]
        | solve [right; right; left;
                 eexists (taskHandle.mk _ _ _ _ _ _ _ _ _ _); cbn;
                 split; [eassumption|split; reflexivity]]
        | solve [do 3 right; left; do 2 eexists; cbn;
                 split; [eassumption|split; [reflexivity|]];
                 first [left; reflexivity|right; eexists; reflexivity]]
        | solve [do 4 right; eexists; cbn; split; reflexivity] ].
Qed.

Lemma store_ok_fold cs :
  forall d,
    store_ok d ->
    store_ok (fold_left (fun d ec => final_state (do_call (fst ec) (snd ec) d)) cs d).
Proof.
  induction cs as [|[E c] cs IH]; intros d Hok; [exact Hok|].
  cbn [fold_left fst snd]. apply IH.
  eapply store_move_ok; [exact Hok|apply do_call_move].
Qed.

Lemma store_ok_after cs : store_ok (after cs).
Proof.
  apply store_ok_fold. intros id l Hl. cbn in Hl.
  rewrite lookup_empty in Hl. discriminate.
Qed.

(** X9: in every state the plugin reaches from [NewPlugin] through calls of
    its methods, each registered id refers to an allocated handle whose task
    configuration carries that very id; hence no handle is ever registered
    under two ids. *)
Theorem registered_handles_belong_to_their_id (cs : list (Env * call)) :
  store_ok (after cs)
  /\ (forall id1 id2 l,
        tasks (after cs) !! id1 = Some l -> tasks (after cs) !! id2 = Some l ->
        id1 = id2).
Proof.
  pose proof (store_ok_after cs) as Hok.
  split; [exact Hok|].
  intros id1 id2 l H1 H2.
  destruct (Hok _ _ H1) as (v1 & Hv1 & <-).
  destruct (Hok _ _ H2) as (v2 & Hv2 & <-).
  congruence.
Qed.





(** X11: a registration changes only through [StartTask], which can only
    add the id of its own task configuration and never rebinds an id that is
    registered, and through [DestroyTask], which can only remove its own id;
    every other call, [SetConfig] and [StopTask] included, leaves every id
    bound as it was. *)
Theorem registrations_change_by_start_and_destroy
  (E : Env) (c : call) (d : WasmtimeDriverPlugin) (id : string) :
  tasks (final_state (do_call E c d)) !! id <> tasks d !! id ->
  (exists cfg,
     c = CallStartTask cfg /\ drivers.ID cfg = id /\ tasks d !! id = None
     /\ is_Some (tasks (final_state (do_call E c d)) !! id))
  \/ (exists force,
        c = CallDestroyTask id force /\ is_Some (tasks d !! id)
        /\ tasks (final_state (do_call E c d)) !! id = None).
Proof.
  destruct (is_SetConfig c) eqn:Hc.
  - destruct c; try discriminate. cbn [do_call]. unfold forget.
    pose proof (SetConfig_frame E cfg d) as (Ht & _).
    intros Hne. exfalso. apply Hne.
    destruct (SetConfig E cfg d); cbn in *; now rewrite Ht.
  - lifecycle_cases c; cbn; intros Hne; try (now exfalso; apply Hne);
      match type of Hne with
      | <[_ := _]> _ !! _ <> _ =>
          left; exists cfg;
          destruct (decide (id = drivers.ID cfg)) as [->|Hid];
          [ rewrite lookup_insert_eq; repeat split; eauto
          | exfalso; apply Hne; now rewrite lookup_insert_ne by congruence ]
      | delete _ _ !! _ <> _ =>
          right; eexists;
          destruct (decide (id = taskID)) as [->|Hid];
          [ rewrite lookup_delete_eq; repeat split; eauto
          | exfalso; apply Hne; now rewrite lookup_delete_ne by congruence ]
      end.
Qed.

Lemma registrations_change_by_start_and_destroy_witness :
  exists cfg,
    CallStartTask Examples.task1 = CallStartTask cfg /\ drivers.ID cfg = "t1".
Proof.
  destruct (registrations_change_by_start_and_destroy
              (Examples.env Examples.defaultConfig false)
              (CallStartTask Examples.task1) NewPlugin "t1")
    as [(cfg & Hc & Hid & _)|(force & Hc & _)].
  - discriminate.
  - exists cfg. split; assumption.
  - discriminate.
Defined.

Lemma unknown_task_not_found_inspect d taskID :
  tasks d !! taskID = None ->
  InspectTask taskID d = Ret (None, Some drivers.ErrTaskNotFound) d.
Proof.
  intros Hnone. unfold InspectTask.
  erewrite bind_Ret by apply tasks_Get_eq. now rewrite Hnone.
Qed.

Lemma IsRunning_startedHandle E cfg driverConfig d :
  IsRunning (startedHandle E cfg driverConfig d) = true.
Proof. reflexivity. Qed.

(** X12: a task can be started again under the same id once it has been
    destroyed.  After a successful [StartTask], a forced [DestroyTask] of the
    id stops the handle and restores the task store as it was before the
    start, so [InspectTask] no longer finds the id; a second [StartTask] for
    the same task configuration, answered by an environment of its own
    (another clock reading, another decoding or encoding), then succeeds,
    returns its own task handle and binds the id to a new handle, while the
    first handle stays allocated, stopped, for its goroutine. *)
Theorem restart_after_destroy
  (E1 E2 : Env) (cfg : drivers.TaskConfig) (d : WasmtimeDriverPlugin)
  (driverConfig1 driverConfig2 : TaskConfig.t) (encoded1 encoded2 : list byte) :
  tasks d !! drivers.ID cfg = None ->
  DecodeDriverConfig E1 cfg = inr driverConfig1 ->
  MsgPackEncode E1 (driverStateOf E1 cfg) = inr encoded1 ->
  DecodeDriverConfig E2 cfg = inr driverConfig2 ->
  MsgPackEncode E2 (driverStateOf E2 cfg) = inr encoded2 ->
  exists d1 d2 d3 l1 l3,
    StartTask E1 cfg d
    = Ret (Some (drivers.mkTaskHandle taskHandleVersion (Some cfg) "" encoded1),
           None, None) d1
    /\ tasks d1 !! drivers.ID cfg = Some l1
    /\ DestroyTask (drivers.ID cfg) true d1 = Ret None d2
    /\ tasks d2 = tasks d
    /\ InspectTask (drivers.ID cfg) d2 = Ret (None, Some drivers.ErrTaskNotFound) d2
    /\ StartTask E2 cfg d2
       = Ret (Some (drivers.mkTaskHandle taskHandleVersion (Some cfg) "" encoded2),
              None, None) d3
    /\ tasks d3 !! drivers.ID cfg = Some l3
    /\ l1 <> l3
    /\ heap d3 !! l1 = Some (stopped (startedHandle E1 cfg driverConfig1 d))
    /\ heap d3 !! l3 = Some (startedHandle E2 cfg driverConfig2 d2).
Proof.
  intros Hnone Hdec1 Henc1 Hdec2 Henc2.
  pose proof (StartTask_started E1 cfg d driverConfig1 encoded1 Hnone Hdec1 Henc1) as H1.
  set (l1 := fresh_loc (heap d)) in *.
  set (v1 := startedHandle E1 cfg driverConfig1 d) in *.
  match type of H1 with _ = Ret _ ?x => set (d1 := x) in * end.
  assert (Ht1 : tasks d1 !! drivers.ID cfg = Some l1) by apply lookup_insert_eq.
  assert (Hh1 : heap d1 !! l1 = Some v1) by apply lookup_insert_eq.
  pose proof (DestroyTask_forced d1 (drivers.ID cfg) l1 v1 Ht1 Hh1
                (IsRunning_startedHandle E1 cfg driverConfig1 d)) as H2.
  match type of H2 with _ = Ret _ ?x => set (d2 := x) in * end.
  assert (Ht2 : tasks d2 = tasks d).
  { unfold d2, d1. cbn. now apply delete_insert_id. }
  assert (Hnone2 : tasks d2 !! drivers.ID cfg = None) by now rewrite Ht2.
  pose proof (StartTask_started E2 cfg d2 driverConfig2 encoded2 Hnone2 Hdec2 Henc2) as H3.
  set (l3 := fresh_loc (heap d2)) in *.
  match type of H3 with _ = Ret _ ?x => set (d3 := x) in * end.
  assert (Hh2 : heap d2 !! l1 = Some (stopped v1)).
  { unfold d2. cbn. apply lookup_insert_eq. }
  assert (Hne : l1 <> l3).
  { intros Heq. pose proof (fresh_loc_fresh (heap d2)) as Hf.
    fold l3 in Hf. rewrite <- Heq in Hf. congruence. }
  exists d1, d2, d3, l1, l3.
  repeat split; try assumption.
  - now apply unknown_task_not_found_inspect.
  - apply lookup_insert_eq.
  - unfold d3. cbn. rewrite lookup_insert_ne by congruence. exact Hh2.
  - apply lookup_insert_eq.
Qed.

Lemma restart_after_destroy_witness :
  exists d1 d2 d3 v1 v3,
    StartTask (Examples.env Examples.defaultConfig false) Examples.task1 NewPlugin
    = Ret (Some (drivers.mkTaskHandle taskHandleVersion (Some Examples.task1) "" [x00]),
           None, None) d1
    /\ DestroyTask "t1" true d1 = Ret None d2
    /\ StartTask Examples.env_later Examples.task1 d2
       = Ret (Some (drivers.mkTaskHandle taskHandleVersion (Some Examples.task1) "" [x07]),
              None, None) d3
    /\ tasks d3 !! "t1" = Some 2%nat
    /\ heap d3 !! 1%nat = Some v1 /\ taskHandle.startedAt v1 = 1700000000123000000
    /\ heap d3 !! 2%nat = Some v3 /\ taskHandle.startedAt v3 = 1700000099000000000.
Proof.
  destruct (restart_after_destroy
              (Examples.env Examples.defaultConfig false) Examples.env_later
              Examples.task1 NewPlugin Examples.taskConf Examples.taskConf
              [x00] [x07] eq_refl eq_refl eq_refl eq_refl eq_refl)
    as (d1 & d2 & d3 & l1 & l3 & H1 & _ & H2 & _ & _ & H3 & Ht3 & _).
  change (drivers.ID Examples.task1) with "t1" in *.
  assert (Hd1 : d1 = final_state
                       (StartTask (Examples.env Examples.defaultConfig false)
                          Examples.task1 NewPlugin))
    by now rewrite H1.
  assert (Hd2 : d2 = final_state (DestroyTask "t1" true d1)) by now rewrite H2.
  assert (Hd3 : d3 = final_state (StartTask Examples.env_later Examples.task1 d2))
    by now rewrite H3.
  exists d1, d2, d3. do 2 eexists.
  split; [exact H1|]. split; [exact H2|]. split; [exact H3|].
  subst d3 d2 d1. repeat split.
Defined.

(** ** Edge inputs of [SetConfig] and the start time of a task *)

(** X13: [SetConfig] applies no defaults of its own.  A call whose plugin
    configuration is empty stores the zero configuration and fails with the
    size error for the size 0, whatever the environment and the plugin; a
    call whose plugin configuration does not decode answers the decoder's
    error and leaves the plugin, the stored configuration included,
    untouched. *)
Theorem SetConfig_empty_or_undecodable
  (E : Env) (cfg : base.Config) (d : WasmtimeDriverPlugin) :
  (base.PluginConfig cfg = [] ->
   SetConfig E cfg d
   = Ret (Some (Errorf "cache size must be > 0, but specified %v" [ArgInt 0]))
       (set_config Config.zero d))
  /\ (forall err,
        base.PluginConfig cfg <> [] ->
        MsgPackDecode E (base.PluginConfig cfg) = inl err ->
        SetConfig E cfg d = Ret (Some err) d).
Proof.
  split.
  - intros Hnil.
    apply (SetConfig_bad_size E cfg d Config.zero); [|cbn; lia].
    unfold decodePluginConfig. now rewrite Hnil.
  - intros err Hne Hdec. apply SetConfig_decode_fails.
    unfold decodePluginConfig.
    destruct (base.PluginConfig cfg); [contradiction|exact Hdec].
Qed.

Lemma SetConfig_empty_or_undecodable_witness :
  SetConfig (Examples.env Examples.defaultConfig false) (base.mkConfig [] None)
    Examples.started
  = Ret (Some (Errorf "cache size must be > 0, but specified %v" [ArgInt 0]))
      (set_config Config.zero Examples.started).
Proof.
  destruct (SetConfig_empty_or_undecodable
              (Examples.env Examples.defaultConfig false)
              (base.mkConfig [] None) Examples.started) as [H _].
  apply H. reflexivity.
Defined.

Lemma Round_Millisecond t :
  let r := time.Round time.Millisecond t in
  r mod time.Millisecond = 0 /\ t - 500000 < r <= t + 500000.
Proof.
  unfold time.Round, time.Millisecond. cbn [Z.leb Z.compare].
  change (1000000 / 2) with 500000.
  pose proof (Z.div_mod (t + 500000) 1000000 ltac:(lia)) as Hdm.
  pose proof (Z.mod_pos_bound (t + 500000) 1000000 ltac:(lia)) as Hb.
  split; [apply Z.mod_mul; lia|lia].
Qed.

(** X14: the start time of a task is the clock reading of [StartTask]
    rounded to the millisecond: a whole number of milliseconds, less than
    half a millisecond before and at most half a millisecond after the
    reading.  The same value is kept in the handle (and reported by
    [InspectTask]) and encoded into the driver state handed back to the
    client. *)
Theorem StartTask_start_time
  (E : Env) (cfg : drivers.TaskConfig) (d : WasmtimeDriverPlugin)
  (driverConfig : TaskConfig.t) (encoded : list byte) :
  tasks d !! drivers.ID cfg = None ->
  DecodeDriverConfig E cfg = inr driverConfig ->
  MsgPackEncode E (driverStateOf E cfg) = inr encoded ->
  exists th d' l v,
    StartTask E cfg d = Ret (Some th, None, None) d'
    /\ drivers.DriverState th = encoded
    /\ tasks d' !! drivers.ID cfg = Some l
    /\ heap d' !! l = Some v
    /\ taskHandle.startedAt v = TaskState.StartedAt (driverStateOf E cfg)
    /\ drivers.status_StartedAt (TaskStatus v) = taskHandle.startedAt v
    /\ taskHandle.startedAt v mod time.Millisecond = 0
    /\ time_Now E - 500000 < taskHandle.startedAt v <= time_Now E + 500000.
Proof.
  intros Hnone Hdec Henc.
  eexists _, _, (fresh_loc (heap d)), (startedHandle E cfg driverConfig d).
  split; [eapply StartTask_started; eassumption|].
  cbn [drivers.DriverState tasks heap].
  split; [reflexivity|]. split; [apply lookup_insert_eq|].
  split; [apply lookup_insert_eq|]. split; [reflexivity|].
  split; [reflexivity|].
  apply (Round_Millisecond (time_Now E)).
Qed.

Lemma StartTask_start_time_witness :
  exists v,
    heap Examples.started !! 1%nat = Some v
    /\ taskHandle.startedAt v = 1700000000123000000.
Proof.
  destruct (StartTask_start_time
              (Examples.env Examples.defaultConfig false) Examples.task1
              NewPlugin Examples.taskConf [x00] eq_refl eq_refl eq_refl)
    as (th & d' & l & v & Hrun & _ & Ht & Hh & Hs & _).
  assert (Hd : d' = Examples.started)
    by (unfold Examples.started; now rewrite Hrun).
  subst d'.
  assert (Hl : Some l = Some 1%nat) by (rewrite <- Ht; reflexivity).
  injection Hl as ->.
  exists v. split; [exact Hh|]. rewrite Hs. reflexivity.
Defined.


(** X15: without pre-caching, calling [SetConfig] a second time with the
    same configuration and the same answers of the decoder gives the same
    answer and leaves the plugin exactly as the first call left it, whether
    the configuration is rejected or accepted. *)
Theorem SetConfig_idempotent_without_precache
  (E : Env) (cfg : base.Config) (d : WasmtimeDriverPlugin) (config_ : Config.t) :
  decodePluginConfig E cfg = inr config_ ->
  CacheConfig.Enabled (Config.Cache config_)
  && PreCacheConfig.Enabled (CacheConfig.PreCache (Config.Cache config_)) = false ->
  SetConfig E cfg (final_state (SetConfig E cfg d)) = SetConfig E cfg d.
Proof.
  intros Hdec Hpre.
  destruct (Z_le_gt_dec (CacheConfig.Size (Config.Cache config_)) 0) as [Hs|Hs].
  { now rewrite !(SetConfig_bad_size E cfg _ config_ Hdec Hs). }
  assert (Hs' : 0 < CacheConfig.Size (Config.Cache config_)) by lia.
  assert (Hcases :
            (ExpirationConfig.Enabled (CacheConfig.Expiration (Config.Cache config_)) = true
             /\ ExpirationConfig.EntryTTL (CacheConfig.Expiration (Config.Cache config_)) <= 0)
            \/ passes_checks config_ = true).
  { destruct (ExpirationConfig.Enabled (CacheConfig.Expiration (Config.Cache config_))) eqn:Hen.
    - destruct (Z_le_gt_dec (ExpirationConfig.EntryTTL (CacheConfig.Expiration (Config.Cache config_))) 0);
        [now left|].
      right. apply passes_checks_true. split; [lia|intros _; lia].
    - right. apply passes_checks_true. split; [lia|rewrite Hen; discriminate]. }
  destruct Hcases as [[Hen Ht]|Hp].
  { now rewrite !(SetConfig_bad_ttl E cfg _ config_ Hdec Hs' Hen Ht). }
  rewrite !(SetConfig_passes_checks E cfg _ config_ Hdec Hp).
  destruct (CacheConfig.Enabled (Config.Cache config_)) eqn:Hon.
  - cbn [andb] in Hpre.
    destruct (validType (CacheConfig.Type_ (Config.Cache config_))) eqn:Hv.
    + pose proof (fun x => configureCache_built E (withAgent cfg (set_config config_ x))) as Hb.
      cbn zeta in Hb.
      assert (Hb' : forall x,
                 configureCache E (withAgent cfg (set_config config_ x))
                 = Ret None
                     (set_modulesCache (Some (builtCache (Config.Cache config_)))
                        (withAgent cfg (set_config config_ x)))).
      { intros x. specialize (Hb x). rewrite withAgent_config in Hb.
        cbn [set_config config] in Hb. now rewrite (Hb Hv Hs'), Hpre. }
      rewrite !Hb'. cbn [final_state]. f_equal.
      unfold withAgent. now destruct (base.AgentConfig_ cfg).
    + assert (Hb' : forall x,
                 configureCache E (withAgent cfg (set_config config_ x))
                 = Ret (Some (Errorf "unexpected cache type specified, expected types: [lfu, arc, lru, simple], but specififed %s"
                                [ArgStr (CacheConfig.Type_ (Config.Cache config_))]))
                     (withAgent cfg (set_config config_ x))).
      { intros x.
        rewrite configureCache_invalid_type; rewrite withAgent_config;
          [reflexivity|exact Hv]. }
      rewrite !Hb'. cbn [final_state]. f_equal.
      unfold withAgent. now destruct (base.AgentConfig_ cfg).
  - cbn [final_state]. f_equal.
    unfold withAgent. now destruct (base.AgentConfig_ cfg).
Qed.

Lemma SetConfig_idempotent_without_precache_witness :
  SetConfig (Examples.env Examples.defaultConfig false) Examples.cfgBytes
    (final_state
       (SetConfig (Examples.env Examples.defaultConfig false) Examples.cfgBytes
          Examples.started))
  = SetConfig (Examples.env Examples.defaultConfig false) Examples.cfgBytes
      Examples.started.
Proof.
  apply (SetConfig_idempotent_without_precache
           (Examples.env Examples.defaultConfig false) Examples.cfgBytes
           Examples.started Examples.defaultConfig eq_refl eq_refl).
Defined.


(** ** From running to exited *)

Lemma procState_stopped v :
  taskHandle.procState (stopped v) = taskHandle.procState v.
Proof.
  unfold stopped.
  now destruct (String.eqb (taskHandle.procState v) drivers.TaskStateExited).
Qed.

Lemma procState_completed r v :
  taskHandle.procState (completed r v) = drivers.TaskStateExited.
Proof.
  unfold completed.
  destruct (String.eqb (taskHandle.procState v) drivers.TaskStateExited) eqn:H;
    [now apply String.eqb_eq in H|reflexivity].
Qed.

Lemma has_state_Some st h d v :
  heap d !! h = Some v ->
  has_state st h d = String.eqb (taskHandle.procState v) st.
Proof. intros H. unfold has_state. now rewrite H. Qed.

(** What a step does to an allocated handle: it leaves its state alone,
    unless the step is the return of the handle's own engine call. *)
Lemma step_on_handle s d h v :
  heap d !! h = Some v ->
  exists v',
    heap (final_state (do_step s d)) !! h = Some v'
    /\ (taskHandle.procState v' = taskHandle.procState v
        \/ (is_return_of h s = true
            /\ taskHandle.procState v' = drivers.TaskStateExited)).
Proof.
  intros Hh. destruct s as [E c|h0 r]; cbn [do_step is_return_of].
  - destruct (do_call_move E c d)
      as [(_ & Hheap)|[(w & _ & Hheap)|[(w & _ & _ & Hheap)
         |[(l0 & v0 & Hl0 & Hheap & _)|(id0 & _ & Hheap)]]]];
      rewrite Hheap.
    + eauto.
    + exists v. split; [|now left]. rewrite lookup_insert_ne; [exact Hh|].
      intros <-. rewrite fresh_loc_fresh in Hh. discriminate.
    + exists v. split; [|now left]. rewrite lookup_insert_ne; [exact Hh|].
      intros <-. rewrite fresh_loc_fresh in Hh. discriminate.
    + destruct (decide (h = l0)) as [->|Hne].
      * exists (stopped v0). rewrite lookup_insert_eq. split; [reflexivity|].
        left. rewrite procState_stopped. congruence.
      * exists v. rewrite lookup_insert_ne by congruence.
        split; [exact Hh|now left].
    + eauto.
  - unfold run_returns. run.
    destruct (heap d !! h0) as [v0|] eqn:Hh0; cbn; [|eauto].
    destruct (decide (h = h0)) as [->|Hne].
    + exists (completed r v0). rewrite lookup_insert_eq. split; [reflexivity|].
      right. split; [apply Nat.eqb_refl|apply procState_completed].
    + exists v. rewrite lookup_insert_ne by congruence.
        split; [exact Hh|now left].
Qed.

Lemma exited_is_final s d h :
  has_state drivers.TaskStateExited h d = true ->
  has_state drivers.TaskStateExited h (final_state (do_step s d)) = true
  /\ exits h d (final_state (do_step s d)) = false.
Proof.
  intros H. unfold exits.
  assert (Hnot : has_state drivers.TaskStateRunning h d = false).
  { unfold has_state in *. destruct (heap d !! h) as [v|]; [|reflexivity].
    apply String.eqb_eq in H. now rewrite H. }
  rewrite Hnot. split; [|reflexivity].
  unfold has_state in H.
  destruct (heap d !! h) as [v|] eqn:Hh; [|discriminate].
  apply String.eqb_eq in H.
  destruct (step_on_handle s d h v Hh) as (v' & Hv' & [Hsame|[_ Hex]]);
    rewrite (has_state_Some _ _ _ _ Hv').
  - now rewrite Hsame, H.
  - now rewrite Hex.
Qed.

Lemma exit_count_exited h steps :
  forall d,
    has_state drivers.TaskStateExited h d = true ->
    exit_count h steps d = 0%nat.
Proof.
  induction steps as [|s steps IH]; intros d H; [reflexivity|].
  cbn [exit_count]. destruct (exited_is_final s d h H) as [Hnext ->].
  now rewrite (IH _ Hnext).
Qed.

Lemma exit_count_at_most_once h steps :
  forall d, (exit_count h steps d <= 1)%nat.
Proof.
  induction steps as [|s steps IH]; intros d; [cbn; lia|].
  cbn [exit_count].
  destruct (exits h d (final_state (do_step s d))) eqn:Hex.
  - unfold exits in Hex. apply andb_true_iff in Hex as [_ Hex].
    rewrite (exit_count_exited h steps _ Hex). lia.
  - specialize (IH (final_state (do_step s d))). lia.
Qed.

Lemma running_until_return s d h :
  has_state drivers.TaskStateRunning h d = true ->
  is_return_of h s = false ->
  has_state drivers.TaskStateRunning h (final_state (do_step s d)) = true
  /\ exits h d (final_state (do_step s d)) = false.
Proof.
  unfold exits. intros H Hs. rewrite H. cbn [andb].
  unfold has_state in H.
  destruct (heap d !! h) as [v|] eqn:Hh; [|discriminate].
  apply String.eqb_eq in H.
  destruct (step_on_handle s d h v Hh) as (v' & Hv' & [Hsame|[Hret _]]);
    [|congruence].
  rewrite !(has_state_Some _ _ _ _ Hv'), Hsame, H. split; reflexivity.
Qed.

Lemma return_exits r d h :
  has_state drivers.TaskStateRunning h d = true ->
  exits h d (final_state (do_step (StepRunReturns h r) d)) = true.
Proof.
  unfold exits. intros H. rewrite H. cbn [andb].
  unfold has_state in H.
  destruct (heap d !! h) as [v|] eqn:Hh; [|discriminate].
  cbn [do_step]. unfold run_returns. run. rewrite Hh. cbn.
  unfold has_state. cbn. rewrite lookup_insert_eq.
  now rewrite procState_completed.
Qed.

Lemma exit_count_without_return h steps :
  forall d,
    has_state drivers.TaskStateRunning h d = true ->
    forallb (fun s => negb (is_return_of h s)) steps = true ->
    exit_count h steps d = 0%nat
    /\ has_state drivers.TaskStateRunning h (run_steps steps d) = true.
Proof.
  induction steps as [|s steps IH]; intros d H Hno; [now split|].
  cbn [forallb] in Hno. apply andb_true_iff in Hno as [Hs Hno].
  apply negb_true_iff in Hs.
  destruct (running_until_return s d h H Hs) as [Hnext Hex].
  cbn [exit_count run_steps fold_left]. rewrite Hex.
  now apply IH.
Qed.

Lemma exit_count_exactly_once h r post pre :
  forall d,
    has_state drivers.TaskStateRunning h d = true ->
    exit_count h (pre ++ StepRunReturns h r :: post) d = 1%nat.
Proof.
  induction pre as [|s pre IH]; intros d H.
  - cbn [app exit_count]. pose proof (return_exits r d h H) as Hex.
    rewrite Hex. unfold exits in Hex. apply andb_true_iff in Hex as [_ Hex].
    now rewrite (exit_count_exited h post _ Hex).
  - cbn [app exit_count].
    destruct (is_return_of h s) eqn:Hs.
    + destruct s as [E c|h0 r0]; [discriminate|].
      cbn [is_return_of] in Hs. apply Nat.eqb_eq in Hs. subst h0.
      pose proof (return_exits r0 d h H) as Hex.
      rewrite Hex. unfold exits in Hex. apply andb_true_iff in Hex as [_ Hex].
      now rewrite (exit_count_exited h _ _ Hex).
    + destruct (running_until_return s d h H Hs) as [Hnext ->].
      now rewrite (IH _ Hnext).
Qed.

Lemma run_steps_keep_exited h steps :
  forall d,
    has_state drivers.TaskStateExited h d = true ->
    has_state drivers.TaskStateExited h (run_steps steps d) = true.
Proof.
  induction steps as [|s steps IH]; intros d H; [exact H|].
  cbn [run_steps fold_left]. apply IH. now apply exited_is_final.
Qed.

Lemma run_steps_exited h r post pre :
  forall d,
    has_state drivers.TaskStateRunning h d = true ->
    has_state drivers.TaskStateExited h
      (run_steps (pre ++ StepRunReturns h r :: post) d) = true.
Proof.
  induction pre as [|s pre IH]; intros d H.
  - cbn [app run_steps fold_left]. apply run_steps_keep_exited.
    pose proof (return_exits r d h H) as Hex. unfold exits in Hex.
    now apply andb_true_iff in Hex as [_ Hex].
  - cbn [app run_steps fold_left].
    destruct (is_return_of h s) eqn:Hs.
    + destruct s as [E c|h0 r0]; [discriminate|].
      cbn [is_return_of] in Hs. apply Nat.eqb_eq in Hs. subst h0.
      apply run_steps_keep_exited.
      pose proof (return_exits r0 d h H) as Hex. unfold exits in Hex.
      now apply andb_true_iff in Hex as [_ Hex].
    + apply IH. now apply running_until_return.
Qed.

(** C8 (amended): there is no Starting state.  Whenever [StartTask]
    succeeds, the handle it has built has state [drivers.TaskStateRunning]
    from its creation on; it is put into the task store in that state and
    only afterwards is the goroutine [h.run()] spawned, so [InspectTask]
    reports the task as running as soon as [StartTask] has returned, before
    the goroutine has started the engine call.  From then on, in every run of
    the plugin (calls of its methods and returns of engine calls, in any
    order), the handle goes from running to exited at most once; no call of
    a method of the plugin makes the transition, so the handle stays running
    as long as its engine call has not returned; and in every run in which
    its engine call returns the transition happens exactly once, later
    returns and [stop()] calls being no-ops on the state. *)
Theorem task_runs_from_start_and_exits_once
  (E : Env) (cfg : drivers.TaskConfig) (d : WasmtimeDriverPlugin)
  (driverConfig : TaskConfig.t) (encoded : list byte) :
  tasks d !! drivers.ID cfg = None ->
  DecodeDriverConfig E cfg = inr driverConfig ->
  MsgPackEncode E (driverStateOf E cfg) = inr encoded ->
  exists th d' l v,
    StartTask E cfg d = Ret (Some th, None, None) d'
    /\ tasks d' !! drivers.ID cfg = Some l
    /\ heap d' !! l = Some v
    /\ taskHandle.procState v = drivers.TaskStateRunning
    /\ IsRunning v = true
    /\ trace d' = (trace d ++ [EvLog "info" "starting task";
                               EvTasksSet (drivers.ID cfg) l;
                               EvGo (go_run l)])%list
    /\ InspectTask (drivers.ID cfg) d' = Ret (Some (TaskStatus v), None) d'
    /\ drivers.status_State (TaskStatus v) = drivers.TaskStateRunning
    /\ (forall steps, (exit_count l steps d' <= 1)%nat)
    /\ (forall steps,
          forallb (fun s => negb (is_return_of l s)) steps = true ->
          exit_count l steps d' = 0%nat
          /\ has_state drivers.TaskStateRunning l (run_steps steps d') = true)
    /\ (forall pre r post,
          exit_count l (pre ++ StepRunReturns l r :: post) d' = 1%nat
          /\ has_state drivers.TaskStateExited l
               (run_steps (pre ++ StepRunReturns l r :: post) d') = true).
Proof.
  intros Hnone Hdec Henc.
  destruct (StartTask_creates_running E cfg d driverConfig encoded Hnone Hdec Henc)
    as (th & d' & l & v & Hrun & Ht & Hh & Hst & Hir & Htr & Hins & Hstatus).
  exists th, d', l, v.
  assert (Hrunning : has_state drivers.TaskStateRunning l d' = true).
  { rewrite (has_state_Some _ _ _ _ Hh), Hst. reflexivity. }
  do 8 (split; [assumption|]).
  split; [intros steps; apply exit_count_at_most_once|].
  split; [intros steps Hno; now apply exit_count_without_return|].
  intros pre r post. split.
  - now apply exit_count_exactly_once.
  - now apply run_steps_exited.
Qed.

Lemma task_runs_from_start_and_exits_once_witness :
  exists th d' l v,
    StartTask (Examples.env Examples.defaultConfig false) Examples.task1
      NewPlugin = Ret (Some th, None, None) d'
    /\ tasks d' !! "t1" = Some l
    /\ heap d' !! l = Some v
    /\ taskHandle.procState v = drivers.TaskStateRunning
    /\ exit_count l
         [StepCall Examples.env_later (CallStopTask "t1" 0 "SIGTERM");
          StepRunReturns l (drivers.mkExitResult 0 0 false None);
          StepCall Examples.env_later (CallInspectTask "t1");
          StepRunReturns l (drivers.mkExitResult 1 0 false None);
          StepCall Examples.env_later (CallStopTask "t1" 0 "SIGTERM")] d'
       = 1%nat.
Proof.
  destruct (task_runs_from_start_and_exits_once
              (Examples.env Examples.defaultConfig false) Examples.task1
              NewPlugin Examples.taskConf [x00] eq_refl eq_refl eq_refl)
    as (th & d' & l & v & Hrun & Ht & Hh & Hst & _ & _ & _ & _ & _ & _ & Hone).
  exists th, d', l, v.
  do 4 (split; [assumption|]).
  exact (proj1 (Hone [StepCall Examples.env_later (CallStopTask "t1" 0 "SIGTERM")]
                  (drivers.mkExitResult 0 0 false None) _)).
Defined.
